(** * netreg: data models and PyTorch classifier

    A shallow embedding of [data_models.py] (class [DataModel]) and of
    [utilities/classify_pytorch.py] (class [TorchLR]).

    A [DataModel] instance is an attribute dictionary ([gmap string pyval]),
    so that [hasattr] and reads of attributes that were never assigned
    behave as in the source; a [TorchLR] instance is a record whose late
    attributes are options.  Exceptions are values of [exn]; a method is a
    function from the object (and the outside world) to a result and the
    mutated object: mutations made before a [raise] survive it, as they do
    in Python.  numpy's float64 is Rocq's binary64 [float]; scikit-learn,
    torch, the file system and the PLIER subprocess are parameters of the
    development, and of pandas the operations that the code calls are
    written out on lists. *)

From Stdlib Require Import Floats QArith.
From stdpp Require Import base option list strings pretty gmap sorting.

Local Open Scope string_scope.
Local Open Scope Z_scope.

(** ** Python exceptions and the two monads *)

Inductive exn : Type :=
| ValueError (msg : string)
| AttributeError (msg : string)
| TypeError (msg : string)
| IndexError (msg : string)
| KeyError (msg : string)
| AssertionError (msg : string)
| LibraryError (msg : string).
  (* LibraryError: whatever a library call or the operating system raises
     on its own account (a failed fit, a missing file, a non-zero exit). *)

Definition result (A : Type) : Type := exn + A.

Definition raise {A} (e : exn) : result A := inl e.

#[export] Instance result_ret : MRet result := fun A x => inr x.
#[export] Instance result_bind : MBind result := fun A B f m =>
  match m with inl e => inl e | inr x => f x end.
#[export] Instance result_fmap : FMap result := fun A B f m =>
  match m with inl e => inl e | inr x => inr (f x) end.

(** [M S A]: a computation on a mutable state [S] that returns an [A] or
    raises; the state is returned in both cases. *)
Definition M (S A : Type) : Type := S -> result A * S.

#[export] Instance M_ret {S} : MRet (M S) := fun A x s => (inr x, s).
#[export] Instance M_bind {S} : MBind (M S) := fun A B f m s =>
  match m s with
  | (inl e, s') => (inl e, s')
  | (inr x, s') => f x s'
  end.

Definition throw {S A} (e : exn) : M S A := fun s => (inl e, s).
Definition get {S} : M S S := fun s => (inr s, s).
Definition modify {S} (f : S -> S) : M S unit := fun s => (inr tt, f s).
Definition lift {S A} (r : result A) : M S A := fun s => (r, s).

Definition is_ok {A} (r : result A) : bool :=
  match r with inr _ => true | inl _ => false end.

Fixpoint mapM {A B} (f : A -> result B) (l : list A) : result (list B) :=
  match l with
  | [] => mret []
  | x :: l' => y ← f x; ys ← mapM f l'; mret (y :: ys)
  end.

Lemma mapM_Forall2 {A B} (f : A -> result B) (R : A -> B -> Prop)
    (l : list A) :
  Forall (fun x => exists y, f x = inr y /\ R x y) l ->
  exists ys, mapM f l = inr ys /\ Forall2 R l ys.
Proof.
  induction 1 as [|x l (y & Hy & HR) _ (ys & Hys & HRs)]; [by eexists|].
  exists (y :: ys). simpl. rewrite Hy. simpl. rewrite Hys.
  by split; [|constructor].
Qed.

(** A bind that returns went through a first step that returned. *)
Lemma bind_inv {S A B} (m : M S A) (k : A -> M S B) (s s2 : S) (y : B) :
  (m ≫= k) s = (inr y, s2) ->
  exists x s1, m s = (inr x, s1) /\ k x s1 = (inr y, s2).
Proof.
  unfold mbind, M_bind. destruct (m s) as [[e|x] s1]; [done|]. eauto.
Qed.

Ltac inv_bind H :=
  let H1 := fresh "Hstep" in
  apply bind_inv in H as (? & ? & H1 & H).

(** Invariants of a computation: [keeps I m] when [m] leads from a state in
    [I] to a state in [I], whether it returns or raises, and
    [never_returns I m] when [m] raises from every state in [I]. *)
Section Invariants.

Context {S : Type} (I : S -> Prop).

Definition keeps {A} (m : M S A) : Prop := forall s, I s -> I (m s).2.

Definition never_returns {A} (m : M S A) : Prop :=
  forall s, I s -> is_ok (m s).1 = false.

Lemma keeps_bind {A B} (m : M S A) (k : A -> M S B) :
  keeps m -> (forall x, keeps (k x)) -> keeps (m ≫= k).
Proof.
  intros Hm Hk s Hs. unfold mbind, M_bind. specialize (Hm s Hs).
  destruct (m s) as [[e|x] s']; simpl in *; [done|]. by apply Hk.
Qed.

Lemma keeps_ret {A} (x : A) : keeps (mret x).
Proof. by intros s. Qed.

Lemma keeps_lift {A} (r : result A) : keeps (lift r).
Proof. by intros s. Qed.

Lemma keeps_throw {A} (e : exn) : keeps (@throw S A e).
Proof. by intros s. Qed.

Lemma never_bind_l {A B} (m : M S A) (k : A -> M S B) :
  never_returns m -> never_returns (m ≫= k).
Proof.
  intros Hm s Hs. unfold mbind, M_bind. specialize (Hm s Hs).
  by destruct (m s) as [[e|x] s'].
Qed.

Lemma never_bind_r {A B} (m : M S A) (k : A -> M S B) :
  keeps m -> (forall x, never_returns (k x)) -> never_returns (m ≫= k).
Proof.
  intros Hm Hk s Hs. unfold mbind, M_bind. specialize (Hm s Hs).
  destruct (m s) as [[e|x] s']; simpl in *; [done|]. by apply Hk.
Qed.

Lemma never_lift_error {A} (e : exn) : never_returns (lift (@inl exn A e)).
Proof. by intros s. Qed.

End Invariants.

(** ** numpy arrays of float64 *)

Definition ndarray : Type := list (list float).

Module Np.

Local Open Scope float_scope.

(** Broadcasting of a binary operation along one axis: equal lengths are
    zipped, a length of one is stretched, anything else is an error. *)
Definition broadcast {A B C} (f : A -> B -> result C)
    (xs : list A) (ys : list B) : result (list C) :=
  if (length xs =? length ys)%nat then mapM (fun p => f p.1 p.2) (zip xs ys)
  else match xs, ys with
       | [x], _ => mapM (f x) ys
       | _, [y] => mapM (fun x => f x y) xs
       | _, _ => raise (ValueError "operands could not be broadcast together")
       end.

Definition broadcast2 (f : float -> float -> float) (x z : ndarray)
    : result ndarray :=
  broadcast (broadcast (fun a b => mret (f a b))) x z.

(** [x[mask(x)] = v], element-wise on a 2-d array. *)
Definition mask_assign (mask : float -> bool) (v : float) (x : ndarray)
    : ndarray :=
  map (map (fun e => if mask e then v else e)) x.

(** A Python int multiplied into a float64 array is converted first. *)
Definition of_int (p : Z) : float :=
  if (p <? 0)%Z then - of_uint63 (Uint63.of_Z (- p))
  else of_uint63 (Uint63.of_Z p).

End Np.

(** ** Binary64

    Facts about IEEE 754 binary64 from the specification of Rocq's
    primitive floats: how large the result of an operation can be, and the
    comparisons. *)

Module Binary64.

(** *** Numbers of binary digits *)
Lemma digits2_pos_size (m : positive) : digits2_pos m = Pos.size m.
Proof. induction m; simpl; congruence. Qed.

Lemma Zdigits2_log2 (n : Z) : 0 < n -> Zdigits2 n = Z.log2 n + 1.
Proof.
  destruct n as [|p|p]; try lia. intros _. simpl.
  rewrite digits2_pos_size. destruct p; simpl; lia.
Qed.

Lemma Zdigits2_nonneg (n : Z) : 0 <= Zdigits2 n.
Proof. destruct n; simpl; lia. Qed.

Lemma Zdigits2_le (n k : Z) : 0 < n -> 0 <= k -> (Zdigits2 n <= k <-> n < 2 ^ k).
Proof.
  intros Hn Hk. rewrite Zdigits2_log2 by done.
  pose proof (Z.log2_spec n Hn) as [Hlo Hhi]. split.
  - intros H. eapply Z.lt_le_trans; [exact Hhi|].
    apply Z.pow_le_mono_r; lia.
  - intros H. destruct (Z.le_gt_cases (Z.log2 n + 1) k) as [|Hgt]; [done|].
    assert (2 ^ k <= 2 ^ Z.log2 n) by (apply Z.pow_le_mono_r; lia). lia.
Qed.

Lemma Zdigits2_ge (n k : Z) : 0 < n -> 1 <= k -> (k <= Zdigits2 n <-> 2 ^ (k - 1) <= n).
Proof.
  intros Hn Hk.
  pose proof (Zdigits2_le n (k - 1) Hn ltac:(lia)). lia.
Qed.

Lemma Zdigits2_pos (n : Z) : 0 < n -> 1 <= Zdigits2 n.
Proof. intros Hn. rewrite Zdigits2_log2 by done. pose proof (Z.log2_nonneg n). lia. Qed.

(** *** The right shift and the rounding of the specification *)
Lemma shr_1_m (mrs : shr_record) :
  0 <= shr_m mrs -> shr_m (shr_1 mrs) = shr_m mrs / 2.
Proof.
  rewrite <- Z.div2_div. destruct mrs as [m r s]. simpl.
  destruct m as [|[p|p|]|p]; try reflexivity. lia.
Qed.

Lemma iter_pos_shr_1 (p : positive) (mrs : shr_record) :
  0 <= shr_m mrs ->
  shr_m (SpecFloat.iter_pos shr_1 p mrs) = shr_m mrs / 2 ^ Zpos p.
Proof.
  revert mrs. induction p as [p IH|p IH|]; intros mrs Hm;
    cbn [SpecFloat.iter_pos].
  - assert (0 <= shr_m (shr_1 mrs)) as H1.
    { rewrite shr_1_m by done. apply Z.div_pos; lia. }
    assert (0 <= shr_m (SpecFloat.iter_pos shr_1 p (shr_1 mrs))) as H2.
    { rewrite IH by done. apply Z.div_pos; [done|]. apply Z.pow_pos_nonneg; lia. }
    rewrite IH, IH, shr_1_m by done.
    rewrite !Z.div_div by (try apply Z.pow_pos_nonneg; lia).
    f_equal. rewrite (Pos2Z.inj_xI p).
    replace (2 * Z.pos p + 1) with (1 + Z.pos p + Z.pos p) by lia.
    rewrite !Z.pow_add_r by lia. lia.
  - assert (0 <= shr_m (SpecFloat.iter_pos shr_1 p mrs)) as H2.
    { rewrite IH by done. apply Z.div_pos; [done|]. apply Z.pow_pos_nonneg; lia. }
    rewrite IH, IH by done.
    rewrite !Z.div_div by (try apply Z.pow_pos_nonneg; lia).
    f_equal. rewrite (Pos2Z.inj_xO p).
    replace (2 * Z.pos p) with (Z.pos p + Z.pos p) by lia.
    rewrite !Z.pow_add_r by lia. lia.
  - rewrite shr_1_m by done. by rewrite Z.pow_1_r.
Qed.

Lemma shr_spec (mrs : shr_record) (e n : Z) :
  0 <= shr_m mrs ->
  shr_m (shr mrs e n).1 = shr_m mrs / 2 ^ Z.max 0 n
  /\ (shr mrs e n).2 = e + Z.max 0 n.
Proof.
  intros Hm. unfold shr. destruct n as [|p|p]; simpl.
  - rewrite Z.div_1_r. lia.
  - rewrite iter_pos_shr_1 by done. split; [done|lia].
  - rewrite Z.div_1_r. lia.
Qed.

Lemma shr_m_of_loc (m : Z) (l : location) : shr_m (shr_record_of_loc m l) = m.
Proof. by destruct l as [|[]]. Qed.

Lemma round_nearest_even_cases (m : Z) (l : location) :
  round_nearest_even m l = m \/ round_nearest_even m l = m + 1.
Proof. destruct l as [|[]]; simpl; auto. destruct (Z.even m); auto. Qed.

(** [binary_round_aux] in terms of two shifts and a rounding. *)
Lemma binary_round_aux_spec (sx : bool) (mx ex : Z) (lx : location) :
  0 <= mx ->
  exists m2,
    let n1 := Z.max 0 (fexp prec emax (Zdigits2 mx + ex) - ex) in
    let m1 := mx / 2 ^ n1 in
    let e1 := ex + n1 in
    let n2 := Z.max 0 (fexp prec emax (Zdigits2 m2 + e1) - e1) in
    let m3 := m2 / 2 ^ n2 in
    let e3 := e1 + n2 in
    (m2 = m1 \/ m2 = m1 + 1)
    /\ binary_round_aux prec emax sx mx ex lx
       = match m3 with
         | Z0 => S754_zero sx
         | Zpos m => if e3 <=? emax - prec then S754_finite sx m e3
                     else S754_infinity sx
         | Zneg _ => S754_nan
         end.
Proof.
  intros Hmx. unfold binary_round_aux, shr_fexp.
  pose proof (shr_spec (shr_record_of_loc mx lx) ex
                (fexp prec emax (Zdigits2 mx + ex) - ex)) as H1.
  rewrite shr_m_of_loc in H1. specialize (H1 Hmx).
  destruct (shr (shr_record_of_loc mx lx) ex _) as [mrs1 e1]. simpl in H1.
  destruct H1 as [Hm1 He1].
  set (m2 := round_nearest_even (shr_m mrs1) (loc_of_shr_record mrs1)).
  assert (0 <= shr_m mrs1) as Hm1pos.
  { rewrite Hm1. apply Z.div_pos; [done|]. apply Z.pow_pos_nonneg; lia. }
  assert (0 <= m2) as Hm2.
  { destruct (round_nearest_even_cases (shr_m mrs1) (loc_of_shr_record mrs1));
      fold m2 in H; lia. }
  pose proof (shr_spec (shr_record_of_loc m2 loc_Exact) e1
                (fexp prec emax (Zdigits2 m2 + e1) - e1)) as H2.
  rewrite shr_m_of_loc in H2. specialize (H2 Hm2).
  destruct (shr (shr_record_of_loc m2 loc_Exact) e1 _) as [mrs2 e2].
  simpl in H2. destruct H2 as [Hm3 He3].
  exists m2. cbv zeta. rewrite <- He1, <- Hm1.
  split.
  { apply round_nearest_even_cases. }
  rewrite Hm3, He3. reflexivity.
Qed.

Lemma Zdigits2_div_pow2 (m n : Z) :
  0 <= m -> 0 <= n -> Zdigits2 (m / 2 ^ n) = Z.max 0 (Zdigits2 m - n).
Proof.
  intros Hm Hn.
  assert (0 < 2 ^ n) as Hpow by (apply Z.pow_pos_nonneg; lia).
  destruct (Z.eq_dec m 0) as [->|Hm0].
  { rewrite Z.div_0_l by lia. simpl. lia. }
  assert (0 <= m / 2 ^ n) as Hq by (apply Z.div_pos; lia).
  destruct (Z.eq_dec (m / 2 ^ n) 0) as [Hq0|Hq0].
  - rewrite Hq0. simpl.
    apply Z.div_small_iff in Hq0; [|lia].
    destruct Hq0 as [[_ Hlt]|?]; [|lia].
    apply Zdigits2_le in Hlt; lia.
  - rewrite !Zdigits2_log2 by lia.
    rewrite <- Z.shiftr_div_pow2 by lia.
    rewrite Z.log2_shiftr by lia.
    assert (2 ^ n <= m) as Hge.
    { destruct (Z.le_gt_cases (2 ^ n) m) as [|Hlt]; [done|].
      rewrite Z.div_small in Hq0 by lia. done. }
    assert (n <= Z.log2 m) by (apply Z.log2_le_pow2; lia). lia.
Qed.

Lemma Zdigits2_succ (m : Z) :
  0 <= m -> Zdigits2 m <= Zdigits2 (m + 1) <= Zdigits2 m + 1.
Proof.
  intros Hm. destruct (Z.eq_dec m 0) as [->|Hm0]; [simpl; lia|].
  pose proof (Zdigits2_pos m ltac:(lia)) as Hd.
  split.
  - apply Zdigits2_ge; [lia|lia|].
    assert (2 ^ (Zdigits2 m - 1) <= m); [|lia].
    apply Zdigits2_ge; lia.
  - apply Zdigits2_le; [lia|lia|].
    assert (m < 2 ^ Zdigits2 m) by (apply Zdigits2_le; lia).
    rewrite Z.pow_add_r by lia. lia.
Qed.

Lemma Zdigits2_zero (m : Z) : 0 <= m -> Zdigits2 m = 0 -> m = 0.
Proof.
  intros Hm Hd. destruct (Z.eq_dec m 0) as [|Hm0]; [done|].
  pose proof (Zdigits2_pos m ltac:(lia)). lia.
Qed.

(** Magnitude of a finite number: its absolute value is in
    [2^(mag-1), 2^mag). *)
Definition mag (m : positive) (e : Z) : Z := Zpos (digits2_pos m) + e.

(** zero, or finite of absolute value below 2^k *)
Definition SFbelow (k : Z) (x : spec_float) : Prop :=
  match x with
  | S754_zero _ => True
  | S754_finite _ m e => mag m e <= k
  | _ => False
  end.

(** positive, finite, of magnitude from lo to hi *)
Definition SFbetween (lo hi : Z) (x : spec_float) : Prop :=
  match x with
  | S754_finite false m e => lo <= mag m e <= hi
  | _ => False
  end.

Lemma fexp_eq (k : Z) : fexp prec emax k = Z.max (k - 53) (-1074).
Proof. reflexivity. Qed.

(** The result of a rounding, in magnitude. *)
Lemma binary_round_aux_mag (sx : bool) (mx ex : Z) (lx : location) (hi : Z) :
  0 < mx -> Zdigits2 mx + ex <= hi -> -1074 <= hi <= 972 ->
  SFbelow (hi + 1) (binary_round_aux prec emax sx mx ex lx)
  /\ forall lo, -1021 <= lo <= Zdigits2 mx + ex ->
       exists m e, binary_round_aux prec emax sx mx ex lx = S754_finite sx m e
                   /\ lo <= mag m e <= hi + 1.
Proof.
  intros Hmx Hhi Hrange.
  destruct (binary_round_aux_spec sx mx ex lx ltac:(lia)) as (m2 & Hm2 & ->).
  cbv zeta in *. rewrite !fexp_eq in *.
  pose proof (Zdigits2_pos mx Hmx) as Hd.
  set (d := Zdigits2 mx) in *.
  set (n1 := Z.max 0 (Z.max (d + ex - 53) (-1074) - ex)) in *.
  assert (0 <= n1) as Hn1 by lia.
  assert (0 <= mx / 2 ^ n1) as Hm1.
  { apply Z.div_pos; [lia|]. apply Z.pow_pos_nonneg; lia. }
  pose proof (Zdigits2_div_pow2 mx n1 ltac:(lia) Hn1) as Hd1.
  fold d in Hd1. set (m1 := mx / 2 ^ n1) in *.
  assert (0 <= m2) as Hm2pos by lia.
  assert (Zdigits2 m1 <= Zdigits2 m2 <= Zdigits2 m1 + 1) as Hd2.
  { destruct Hm2 as [->| ->]; [lia|]. by apply Zdigits2_succ. }
  set (d2 := Zdigits2 m2) in *.
  set (e1 := ex + n1) in *.
  set (n2 := Z.max 0 (Z.max (d2 + e1 - 53) (-1074) - e1)) in *.
  assert (0 <= n2) as Hn2 by lia.
  pose proof (Zdigits2_div_pow2 m2 n2 Hm2pos Hn2) as Hd3. fold d2 in Hd3.
  assert (0 <= m2 / 2 ^ n2) as Hm3.
  { apply Z.div_pos; [lia|]. apply Z.pow_pos_nonneg; lia. }
  destruct (m2 / 2 ^ n2) as [|m3|m3] eqn:Em3; [| |lia].
  - split; [done|]. intros lo Hlo. simpl in Hd3. exfalso. lia.
  - change (Zdigits2 (Z.pos m3)) with (Z.pos (digits2_pos m3)) in Hd3.
    change (emax - prec) with 971.
    assert ((e1 + n2 <=? 971) = true) as -> by (apply Z.leb_le; lia).
    unfold SFbelow, mag. split; [lia|].
    intros lo Hlo. eexists _, _. split; [reflexivity|]. lia.
Qed.

Lemma Zdigits2_mul_pow2 (m k : Z) :
  0 < m -> 0 <= k -> Zdigits2 (m * 2 ^ k) = Zdigits2 m + k.
Proof.
  intros Hm Hk.
  assert (0 < 2 ^ k) by (apply Z.pow_pos_nonneg; lia).
  rewrite !Zdigits2_log2 by lia. rewrite Z.log2_mul_pow2 by lia. lia.
Qed.

Lemma Zdigits2_opp (m : Z) : Zdigits2 (- m) = Zdigits2 m.
Proof. by destruct m. Qed.

Lemma Zdigits2_mono (a b : Z) : 0 <= a <= b -> Zdigits2 a <= Zdigits2 b.
Proof.
  intros [Ha Hab]. destruct (Z.eq_dec a 0) as [->|Ha0].
  { simpl. apply Zdigits2_nonneg. }
  rewrite !Zdigits2_log2 by lia.
  pose proof (Z.log2_le_mono a b Hab). lia.
Qed.

Lemma pos_iter_xO (m d : positive) :
  Z.pos (Pos.iter xO m d) = Z.pos m * 2 ^ Z.pos d.
Proof.
  change (Pos.iter xO m d) with (shift_pos d m).
  rewrite shift_pos_correct. change (Zpower_pos 2 d) with (2 ^ Z.pos d). lia.
Qed.

Lemma shl_align_spec (mx : positive) (ex ex' : Z) :
  Z.pos (shl_align mx ex ex').1 = Z.pos mx * 2 ^ (ex - (shl_align mx ex ex').2)
  /\ (shl_align mx ex ex').2 = Z.min ex ex'.
Proof.
  unfold shl_align. destruct (ex' - ex) as [|d|d] eqn:E; simpl.
  - rewrite Z.sub_diag. simpl. lia.
  - rewrite Z.sub_diag. simpl. lia.
  - rewrite pos_iter_xO. replace (ex - ex') with (Z.pos d) by lia. lia.
Qed.

Lemma mag_shl_align (mx : positive) (ex ex' : Z) :
  mag (shl_align mx ex ex').1 (shl_align mx ex ex').2 = mag mx ex.
Proof.
  destruct (shl_align_spec mx ex ex') as [Hm He].
  unfold mag. change (Z.pos (digits2_pos ?m)) with (Zdigits2 (Z.pos m)).
  rewrite Hm, Zdigits2_mul_pow2 by lia. lia.
Qed.

Lemma binary_round_mag (sx : bool) (mx : positive) (ex hi : Z) :
  mag mx ex <= hi -> -1074 <= hi <= 972 ->
  SFbelow (hi + 1) (binary_round prec emax sx mx ex)
  /\ forall lo, -1021 <= lo <= mag mx ex ->
       exists m e, binary_round prec emax sx mx ex = S754_finite sx m e
                   /\ lo <= mag m e <= hi + 1.
Proof.
  intros Hhi Hrange. unfold binary_round.
  pose proof (mag_shl_align mx ex
                (fexp prec emax (Z.pos (digits2_pos mx) + ex))) as Hmag.
  destruct (shl_align mx ex _) as [mz ez]. simpl in Hmag.
  unfold mag in *.
  change (Z.pos (digits2_pos mz)) with (Zdigits2 (Z.pos mz)) in Hmag.
  rewrite <- Hmag.
  apply binary_round_aux_mag; lia.
Qed.

Lemma binary_normalize_below (m e hi : Z) (szero : bool) :
  Zdigits2 m + e <= hi -> -1074 <= hi <= 972 ->
  SFbelow (hi + 1) (binary_normalize prec emax m e szero).
Proof.
  intros Hhi Hrange. destruct m as [|p|p]; simpl; [done| |];
    by apply binary_round_mag.
Qed.

Lemma binary_normalize_between (m e lo hi : Z) (szero : bool) :
  0 < m -> -1021 <= lo <= Zdigits2 m + e -> Zdigits2 m + e <= hi ->
  hi <= 972 ->
  SFbetween lo (hi + 1) (binary_normalize prec emax m e szero).
Proof.
  intros Hm Hlo Hhi Hrange. destruct m as [|p|p]; try lia. simpl.
  destruct (binary_round_mag false p e hi) as [_ H]; [done|lia|].
  destruct (H lo) as (m' & e' & -> & Hmag); [done|]. done.
Qed.

(** *** Multiplication *)

Lemma SFmul_below (k1 k2 : Z) (x y : spec_float) :
  SFbelow k1 x -> SFbelow k2 y -> -1074 <= k1 + k2 <= 972 ->
  SFbelow (k1 + k2 + 1) (SFmul prec emax x y).
Proof.
  destruct x as [sx|sx| |sx mx ex], y as [sy|sy| |sy my ey]; simpl;
    try done.
  unfold mag. intros Hx Hy Hrange.
  apply binary_round_aux_mag; [lia| |lia].
  change (Z.pos (digits2_pos ?m)) with (Zdigits2 (Z.pos m)) in *.
  assert (Zdigits2 (Z.pos (mx * my)) <= Zdigits2 (Z.pos mx) + Zdigits2 (Z.pos my));
    [|lia].
  pose proof (Zdigits2_pos (Z.pos mx) ltac:(lia)).
  pose proof (Zdigits2_pos (Z.pos my) ltac:(lia)).
  apply Zdigits2_le; [lia|lia|].
  assert (Z.pos mx < 2 ^ Zdigits2 (Z.pos mx)) by (apply Zdigits2_le; lia).
  assert (Z.pos my < 2 ^ Zdigits2 (Z.pos my)) by (apply Zdigits2_le; lia).
  rewrite Z.pow_add_r by lia. rewrite Pos2Z.inj_mul. nia.
Qed.

(** *** Addition *)

Lemma Zdigits2_add (a b k : Z) :
  0 <= k -> Zdigits2 a <= k -> Zdigits2 b <= k -> Zdigits2 (a + b) <= k + 1.
Proof.
  intros Hk Ha Hb.
  assert (forall c, Zdigits2 c <= k -> Z.abs c < 2 ^ k) as Habs.
  { intros c Hc. destruct (Z.eq_dec c 0) as [->|Hc0].
    { simpl. apply Z.pow_pos_nonneg; lia. }
    apply Zdigits2_le; [lia|lia|].
    destruct c; simpl in *; try lia. }
  pose proof (Habs a Ha). pose proof (Habs b Hb).
  destruct (Z.eq_dec (a + b) 0) as [->|Hab0]; [simpl; lia|].
  assert (Zdigits2 (a + b) = Zdigits2 (Z.abs (a + b))) as ->.
  { destruct (a + b); done. }
  apply Zdigits2_le; [lia|lia|].
  rewrite Z.pow_add_r by lia. lia.
Qed.

Lemma aligned_digits (s : bool) (m : positive) (e ez : Z) :
  ez <= e ->
  Zdigits2 (cond_Zopp s (Z.pos (shl_align m e ez).1)) + ez = mag m e.
Proof.
  intros Hez. destruct (shl_align_spec m e ez) as [Hm He].
  assert (Zdigits2 (cond_Zopp s (Z.pos (shl_align m e ez).1))
          = Zdigits2 (Z.pos (shl_align m e ez).1)) as ->.
  { destruct s; [apply Zdigits2_opp|done]. }
  rewrite <- (mag_shl_align m e ez). unfold mag.
  change (Z.pos (digits2_pos ?m)) with (Zdigits2 (Z.pos m)). lia.
Qed.

Lemma SFadd_below (k : Z) (x y : spec_float) :
  SFbelow k x -> SFbelow k y -> -1074 <= k <= 970 ->
  SFbelow (k + 2) (SFadd prec emax x y).
Proof.
  destruct x as [sx|sx| |sx mx ex], y as [sy|sy| |sy my ey]; simpl;
    try done.
  - intros _ _ _. by destruct sx, sy.
  - unfold mag. lia.
  - unfold mag. lia.
  - intros Hx Hy Hrange.
    replace (k + 2) with (k + 1 + 1) by lia.
    apply binary_normalize_below; [|lia].
    pose proof (aligned_digits sx mx ex (Z.min ex ey) ltac:(lia)) as Hdx.
    pose proof (aligned_digits sy my ey (Z.min ex ey) ltac:(lia)) as Hdy.
    set (X := cond_Zopp sx _) in *. set (Y := cond_Zopp sy _) in *.
    pose proof (Zdigits2_nonneg X). pose proof (Zdigits2_nonneg Y).
    pose proof (Zdigits2_add X Y (k - Z.min ex ey)). lia.
Qed.

Lemma SFadd_between (lo lo' hi : Z) (x y : spec_float) :
  SFbetween lo hi x -> SFbetween lo' hi y -> -1021 <= lo -> hi <= 970 ->
  SFbetween lo (hi + 2) (SFadd prec emax x y).
Proof.
  destruct x as [sx|sx| |[] mx ex], y as [sy|sy| |[] my ey];
    try (simpl; done).
  cbn [SFadd SFbetween cond_Zopp]. intros Hx Hy Hlo Hhi.
  pose proof (aligned_digits false mx ex (Z.min ex ey) ltac:(lia)) as Hdx.
  pose proof (aligned_digits false my ey (Z.min ex ey) ltac:(lia)) as Hdy.
  cbn [cond_Zopp] in Hdx, Hdy.
  set (X := Z.pos (shl_align mx ex (Z.min ex ey)).1) in *.
  set (Y := Z.pos (shl_align my ey (Z.min ex ey)).1) in *.
  assert (0 < X) as HX by (unfold X; lia).
  assert (0 < Y) as HY by (unfold Y; lia).
  replace (hi + 2) with (hi + 1 + 1) by lia.
  apply binary_normalize_between; [lia| | |lia].
  - pose proof (Zdigits2_mono X (X + Y) ltac:(lia)). lia.
  - pose proof (Zdigits2_nonneg X). pose proof (Zdigits2_nonneg Y).
    pose proof (Zdigits2_add X Y (hi - Z.min ex ey)). lia.
Qed.

(** *** One minus a number that is at most 1 - epsilon *)

Definition SF_one : spec_float := S754_finite false 4503599627370496 (-52).

Lemma SFsub_one (m : positive) (e : Z) :
  Zdigits2 (Z.pos m) = 53 -> -76 <= e <= -53 ->
  SFbetween (-75) 1 (SFsub prec emax SF_one (S754_finite false m e)).
Proof.
  intros Hd He. unfold SF_one. cbn [SFsub cond_Zopp].
  replace (Z.min (-52) e) with e by lia.
  destruct (shl_align_spec 4503599627370496 (-52) e) as [HX HXe].
  destruct (shl_align_spec m e e) as [HY HYe].
  rewrite HXe in HX. rewrite HYe in HY.
  replace (Z.min (-52) e) with e in HX by lia.
  replace (Z.min e e) with e in HY by lia.
  rewrite Z.sub_diag in HY. change (2 ^ 0) with 1 in HY.
  rewrite HX, HY.
  assert (Z.pos m < 2 ^ 53) as Hm by (apply Zdigits2_le; lia).
  assert (4503599627370496 * 2 ^ (-52 - e) = 2 ^ (- e)) as ->.
  { change 4503599627370496 with (2 ^ 52).
    rewrite <- Z.pow_add_r by lia. f_equal. lia. }
  assert (2 ^ 53 <= 2 ^ (- e)) by (apply Z.pow_le_mono_r; lia).
  set (S := 2 ^ (- e) - Z.pos m * 1).
  assert (0 < S) by (unfold S; lia).
  apply (binary_normalize_between S e (-75) 0); [done| | |lia].
  - pose proof (Zdigits2_pos S ltac:(lia)). lia.
  - assert (Zdigits2 S <= - e); [|lia].
    apply Zdigits2_le; [lia|lia|]. unfold S. lia.
Qed.

(** *** Division of positive numbers *)

Lemma div_eucl_div (a b : Z) : (Z.div_eucl a b).1 = a / b.
Proof. unfold Z.div. by destruct (Z.div_eucl a b). Qed.

Lemma SFdiv_between (lo1 hi1 lo2 hi2 : Z) (x y : spec_float) :
  SFbetween lo1 hi1 x -> SFbetween lo2 hi2 y ->
  -1021 <= lo1 - hi2 -> hi1 - lo2 + 1 <= 972 ->
  SFbetween (lo1 - hi2) (hi1 - lo2 + 2) (SFdiv prec emax x y).
Proof.
  destruct x as [sx|sx| |[] mx ex], y as [sy|sy| |[] my ey]; simpl;
    try done.
  unfold mag. change (Z.pos (digits2_pos ?m)) with (Zdigits2 (Z.pos m)).
  intros Hx Hy Hlo Hhi.
  unfold SFdiv_core_binary.
  change (Zdigits2 (Z.pos mx)) with (Zdigits2 (Z.pos mx)).
  set (d1 := Zdigits2 (Z.pos mx)) in *.
  set (d2 := Zdigits2 (Z.pos my)) in *.
  rewrite fexp_eq.
  set (e' := Z.min (Z.max (d1 + ex - (d2 + ey) - 53) (-1074)) (ex - ey)).
  set (s := ex - ey - e').
  assert (0 <= s) as Hs by (unfold s, e'; lia).
  assert (d2 - d1 + 53 <= s) as Hs' by (unfold s, e'; lia).
  pose proof (Zdigits2_pos (Z.pos mx) ltac:(lia)) as Hd1. fold d1 in Hd1.
  pose proof (Zdigits2_pos (Z.pos my) ltac:(lia)) as Hd2. fold d2 in Hd2.
  assert (match s with
          | 0 => Z.pos mx
          | Z.pos _ => Z.shiftl (Z.pos mx) s
          | Z.neg _ => 0
          end = Z.pos mx * 2 ^ s) as ->.
  { destruct s eqn:Es; [simpl; lia| |lia].
    by rewrite Z.shiftl_mul_pow2 by lia. }
  pose proof (div_eucl_div (Z.pos mx * 2 ^ s) (Z.pos my)) as Hq.
  destruct (Z.div_eucl (Z.pos mx * 2 ^ s) (Z.pos my)) as [q r].
  simpl in Hq. subst q.
  set (m' := Z.pos mx * 2 ^ s).
  assert (0 < 2 ^ s) by (apply Z.pow_pos_nonneg; lia).
  assert (Zdigits2 m' = d1 + s) as Hdm'.
  { unfold m'. by rewrite Zdigits2_mul_pow2 by lia. }
  assert (2 ^ (d1 + s - 1) <= m' < 2 ^ (d1 + s)) as Hm'.
  { split.
    - apply Zdigits2_ge; [unfold m'; lia|lia|lia].
    - apply Zdigits2_le; [unfold m'; lia|lia|lia]. }
  assert (2 ^ (d2 - 1) <= Z.pos my < 2 ^ d2) as Hmy.
  { split; [apply Zdigits2_ge; lia|apply Zdigits2_le; lia]. }
  assert (2 ^ (d1 + s - d2 - 1) <= m' / Z.pos my) as Hqlo.
  { apply Z.div_le_lower_bound; [lia|].
    assert (Z.pos my * 2 ^ (d1 + s - d2 - 1) <= 2 ^ d2 * 2 ^ (d1 + s - d2 - 1)).
    { apply Z.mul_le_mono_nonneg_r; [|lia].
      apply Z.pow_nonneg; lia. }
    rewrite <- Z.pow_add_r in H0 by lia.
    replace (d2 + (d1 + s - d2 - 1)) with (d1 + s - 1) in H0 by lia. lia. }
  assert (m' / Z.pos my < 2 ^ (d1 + s - d2 + 1)) as Hqhi.
  { apply Z.div_lt_upper_bound; [lia|].
    assert (2 ^ (d2 - 1) * 2 ^ (d1 + s - d2 + 1)
            <= Z.pos my * 2 ^ (d1 + s - d2 + 1)).
    { apply Z.mul_le_mono_nonneg_r; [|lia].
      apply Z.pow_nonneg; lia. }
    rewrite <- Z.pow_add_r in H0 by lia.
    replace (d2 - 1 + (d1 + s - d2 + 1)) with (d1 + s) in H0 by lia. lia. }
  assert (0 < 2 ^ (d1 + s - d2 - 1)) by (apply Z.pow_pos_nonneg; lia).
  set (q := m' / Z.pos my) in *.
  assert (d1 + s - d2 <= Zdigits2 q <= d1 + s - d2 + 1) as Hdq.
  { split; [apply Zdigits2_ge; [lia|lia|]|apply Zdigits2_le; lia].
    by replace (d1 + s - d2 - 1) with (d1 + s - d2 - 1) by lia. }
  destruct (binary_round_aux_mag false q e' (new_location (Z.pos my) r)
              (hi1 - lo2 + 1)) as [_ H']; [lia|unfold s in *; lia|lia|].
  destruct (H' (lo1 - hi2)) as (m & e & -> & Hmag);
    [unfold s in *; lia|].
  simpl. unfold mag in *. lia.
Qed.

(** *** Comparisons *)

Local Open Scope float_scope.

Lemma SFcompare_antisym (a b : spec_float) :
  SFcompare b a = CompOpp <$> SFcompare a b.
Proof.
  destruct a as [sa|sa| |sa ma ea], b as [sb|sb| |sb mb eb];
    try (destruct sa); try (destruct sb); try reflexivity; simpl;
    rewrite (Z.compare_antisym ea eb);
    destruct (ea ?= eb)%Z; simpl; try reflexivity;
    change (Pos.compare_cont Eq mb ma)
      with (Pos.compare_cont (CompOpp Eq) mb ma);
    rewrite <- (Pos.compare_cont_antisym ma mb Eq);
    try rewrite CompOpp_involutive; reflexivity.
Qed.

Lemma SFcompare_not_nan (a b : float) :
  is_nan a = false -> is_nan b = false ->
  is_Some (SFcompare (Prim2SF a) (Prim2SF b)).
Proof.
  unfold is_nan. rewrite !FloatAxioms.eqb_spec. unfold SFeqb.
  destruct (Prim2SF a), (Prim2SF b); simpl; try discriminate; eauto.
Qed.

Lemma ltb_false_of_leb (a b : float) : (a <=? b) = true -> (b <? a) = false.
Proof.
  rewrite FloatAxioms.leb_spec, FloatAxioms.ltb_spec. unfold SFleb, SFltb.
  rewrite (SFcompare_antisym (Prim2SF a) (Prim2SF b)).
  destruct (SFcompare (Prim2SF a) (Prim2SF b)) as [[]|]; simpl; congruence.
Qed.

Lemma leb_of_ltb_false (a b : float) :
  is_nan a = false -> is_nan b = false -> (a <? b) = false -> (b <=? a) = true.
Proof.
  intros Ha Hb. destruct (SFcompare_not_nan a b Ha Hb) as [c Hc].
  rewrite FloatAxioms.leb_spec, FloatAxioms.ltb_spec. unfold SFleb, SFltb.
  rewrite (SFcompare_antisym (Prim2SF a) (Prim2SF b)), Hc.
  destruct c; simpl; congruence.
Qed.

Lemma SFleb_trans (a b c : spec_float) :
  SFleb a b = true -> SFleb b c = true -> SFleb a c = true.
Proof.
  unfold SFleb.
  destruct a as [sa|sa| |sa ma ea], b as [sb|sb| |sb mb eb],
    c as [sc|sc| |sc mc ec];
    try (destruct sa); try (destruct sb); try (destruct sc);
    simpl; try done;
    change (Pos.compare_cont Eq ma mb) with (Pos.compare ma mb);
    change (Pos.compare_cont Eq mb mc) with (Pos.compare mb mc);
    change (Pos.compare_cont Eq ma mc) with (Pos.compare ma mc);
    destruct (Z.compare_spec ea eb), (Z.compare_spec eb ec),
      (Z.compare_spec ea ec); simpl; try done; try lia;
    destruct (Pos.compare_spec ma mb), (Pos.compare_spec mb mc),
      (Pos.compare_spec ma mc); simpl; try done; lia.
Qed.

Lemma leb_trans (a b c : float) :
  (a <=? b) = true -> (b <=? c) = true -> (a <=? c) = true.
Proof. rewrite !FloatAxioms.leb_spec. apply SFleb_trans. Qed.

Lemma ltb_leb (a b : float) : (a <? b) = true -> (a <=? b) = true.
Proof.
  rewrite FloatAxioms.leb_spec, FloatAxioms.ltb_spec. unfold SFleb, SFltb.
  by destruct (SFcompare (Prim2SF a) (Prim2SF b)) as [[]|].
Qed.

Lemma ltb_of_leb_false (a b : float) :
  is_nan a = false -> is_nan b = false -> (a <=? b) = false -> (b <? a) = true.
Proof.
  intros Ha Hb. destruct (SFcompare_not_nan a b Ha Hb) as [c Hc].
  rewrite FloatAxioms.leb_spec, FloatAxioms.ltb_spec. unfold SFleb, SFltb.
  rewrite (SFcompare_antisym (Prim2SF a) (Prim2SF b)), Hc.
  destruct c; simpl; congruence.
Qed.

Lemma leb_refl (a : float) : is_nan a = false -> (a <=? a) = true.
Proof.
  unfold is_nan. rewrite FloatAxioms.leb_spec, FloatAxioms.eqb_spec.
  unfold SFleb, SFeqb. intros H%negb_false_iff.
  by destruct (SFcompare (Prim2SF a) (Prim2SF a)) as [[]|].
Qed.

Lemma leb_not_nan (a b : float) :
  (a <=? b) = true -> is_nan a = false /\ is_nan b = false.
Proof.
  unfold is_nan. rewrite FloatAxioms.leb_spec, !FloatAxioms.eqb_spec.
  unfold SFleb, SFeqb.
  destruct (Prim2SF a) as [[]|[]| |[] ma ea],
    (Prim2SF b) as [[]|[]| |[] mb eb];
    simpl; try done;
    repeat match goal with
           | |- context [Pos.compare_cont Eq ?p ?p] =>
             change (Pos.compare_cont Eq p p) with (Pos.compare p p)
           end;
    rewrite ?Z.compare_refl, ?Pos.compare_refl; done.
Qed.

(** *** Magnitudes of binary64 numbers *)

Definition below (k : Z) (v : float) : Prop := SFbelow k (Prim2SF v).
Definition between (lo hi : Z) (v : float) : Prop :=
  SFbetween lo hi (Prim2SF v).

Lemma below_mono (k k' : Z) (v : float) :
  (k <= k')%Z -> below k v -> below k' v.
Proof.
  unfold below. destruct (Prim2SF v); simpl; try done. lia.
Qed.

Lemma between_mono (lo hi lo' hi' : Z) (v : float) :
  (lo' <= lo)%Z -> (hi <= hi')%Z -> between lo hi v -> between lo' hi' v.
Proof.
  unfold between. destruct (Prim2SF v) as [| | |[] m e]; simpl; try done. lia.
Qed.

Lemma between_below (lo hi : Z) (v : float) : between lo hi v -> below hi v.
Proof.
  unfold between, below.
  destruct (Prim2SF v) as [| | |[] m e]; simpl; try done. lia.
Qed.

Lemma below_is_finite (k : Z) (v : float) : below k v -> is_finite v = true.
Proof.
  unfold below, is_finite, is_nan, is_infinity.
  rewrite !FloatAxioms.eqb_spec, FloatAxioms.abs_spec.
  change (Prim2SF infinity) with (S754_infinity false).
  unfold SFeqb.
  destruct (Prim2SF v) as [[]|[]| |[] m e]; simpl; try done;
    intros _; rewrite Z.compare_refl;
    change (Pos.compare_cont Eq m m) with (Pos.compare m m);
    by rewrite Pos.compare_refl.
Qed.

Lemma mul_below (k1 k2 : Z) (x y : float) :
  below k1 x -> below k2 y -> (-1074 <= k1 + k2 <= 972)%Z ->
  below (k1 + k2 + 1) (x * y).
Proof. unfold below. rewrite FloatAxioms.mul_spec. apply SFmul_below. Qed.

Lemma add_below (k : Z) (x y : float) :
  below k x -> below k y -> (-1074 <= k <= 970)%Z -> below (k + 2) (x + y).
Proof. unfold below. rewrite FloatAxioms.add_spec. apply SFadd_below. Qed.

Lemma add_between (lo lo' hi : Z) (x y : float) :
  between lo hi x -> between lo' hi y -> (-1021 <= lo)%Z -> (hi <= 970)%Z ->
  between lo (hi + 2) (x + y).
Proof. unfold between. rewrite FloatAxioms.add_spec. apply SFadd_between. Qed.

Lemma opp_below (k : Z) (x : float) : below k x -> below k (- x).
Proof.
  unfold below. rewrite FloatAxioms.opp_spec.
  by destruct (Prim2SF x).
Qed.

Lemma div_between (lo1 hi1 lo2 hi2 : Z) (x y : float) :
  between lo1 hi1 x -> between lo2 hi2 y ->
  (-1021 <= lo1 - hi2)%Z -> (hi1 - lo2 + 1 <= 972)%Z ->
  between (lo1 - hi2) (hi1 - lo2 + 2) (x / y).
Proof. unfold between. rewrite FloatAxioms.div_spec. apply SFdiv_between. Qed.

(** The default epsilon, 1e-07, and 1 - epsilon. *)
Definition eps : float := 0x1.ad7f29abcaf48p-24.

Lemma within_eps (e : float) :
  (eps <=? e) = true -> (e <=? 1 - eps) = true ->
  exists m ex, Prim2SF e = S754_finite false m ex
               /\ Zdigits2 (Z.pos m) = 53%Z /\ (-76 <= ex <= -53)%Z.
Proof.
  rewrite !FloatAxioms.leb_spec. pose proof (Prim2SF_valid e) as Hv.
  replace (Prim2SF eps)
    with (S754_finite false 7555786372591432 (-76)) by (vm_compute; reflexivity).
  replace (Prim2SF (1 - eps))
    with (S754_finite false 9007198354021067 (-53)) by (vm_compute; reflexivity).
  unfold SFleb.
  destruct (Prim2SF e) as [[]|[]| |[] m ex];
    try (cbn [SFcompare]; intros H1 H2; discriminate).
  cbn [SFcompare]. intros Hlo Hhi. exists m, ex. split; [reflexivity|].
  assert (-76 <= ex <= -53)%Z as Hex.
  { destruct (Z.compare_spec (-76) ex) as [?|?|?];
      destruct (Z.compare_spec ex (-53)) as [?|?|?];
      try discriminate; lia. }
  split; [|exact Hex]. cbn [SpecFloat.valid_binary] in Hv.
  unfold bounded, canonical_mantissa in Hv.
  apply andb_true_iff in Hv as [Hc _]. apply Z.eqb_eq in Hc.
  rewrite fexp_eq in Hc.
  change (Zdigits2 (Z.pos m)) with (Z.pos (digits2_pos m)). lia.
Qed.

Lemma within_eps_between (e : float) :
  (eps <=? e) = true -> (e <=? 1 - eps) = true -> between (-23) 0 e.
Proof.
  intros Hlo Hhi. destruct (within_eps e Hlo Hhi) as (m & ex & He & Hd & Hex).
  unfold between. rewrite He. simpl. unfold mag.
  change (Z.pos (digits2_pos m)) with (Zdigits2 (Z.pos m)). lia.
Qed.

Lemma one_minus_between (e : float) :
  (eps <=? e) = true -> (e <=? 1 - eps) = true -> between (-75) 1 (1 - e).
Proof.
  intros Hlo Hhi. destruct (within_eps e Hlo Hhi) as (m & ex & He & Hd & Hex).
  unfold between. rewrite FloatAxioms.sub_spec, He.
  change (Prim2SF 1) with SF_one. by apply SFsub_one.
Qed.

Lemma one_plus_between (lo hi : Z) (y : float) :
  between lo hi y -> (1 <= hi <= 970)%Z -> between 1 (hi + 2) (1 + y).
Proof.
  intros Hy Hhi. apply (add_between 1 lo hi); [|done|lia|lia].
  unfold between. change (Prim2SF 1) with SF_one. simpl. unfold mag. simpl. lia.
Qed.

Lemma of_int_below (p : Z) :
  (- 2 ^ 63 < p < 2 ^ 63)%Z -> below 64 (Np.of_int p).
Proof.
  assert (forall q, (0 <= q < 2 ^ 63)%Z ->
                    below 64 (of_uint63 (Uint63.of_Z q))) as Hq.
  { intros q Hq. unfold below.
    rewrite FloatAxioms.of_uint63_spec, Uint63.of_Z_spec.
    rewrite Z.mod_small by (change Uint63.wB with (2 ^ 63)%Z; lia).
    apply (binary_normalize_below q 0%Z 63%Z); [|lia].
    destruct (Z.eq_dec q 0%Z) as [->|Hq0]; [simpl; lia|].
    assert (Zdigits2 q <= 63)%Z; [|lia]. apply Zdigits2_le; lia. }
  intros Hp. unfold Np.of_int. destruct (Z.ltb_spec p 0).
  - apply opp_below, Hq. lia.
  - apply Hq. lia.
Qed.

Lemma between_not_nan (lo hi : Z) (v : float) :
  between lo hi v -> is_nan v = false.
Proof.
  intros H%between_below%below_is_finite. unfold is_finite in H.
  by destruct (is_nan v).
Qed.

Lemma below_not_nan (k : Z) (v : float) : below k v -> is_nan v = false.
Proof.
  intros H%below_is_finite. unfold is_finite in H. by destruct (is_nan v).
Qed.

(** A positive number below 2^2 compares as less than 4. *)
Lemma between_lt_four (lo hi : Z) (v : float) :
  between lo hi v -> (hi <= 2)%Z -> (v <? 4) = true.
Proof.
  unfold between. rewrite FloatAxioms.ltb_spec.
  pose proof (Prim2SF_valid v) as Hv.
  change (Prim2SF 4) with (S754_finite false 4503599627370496 (-50)).
  destruct (Prim2SF v) as [| | |[] m e]; try (by intros []).
  intros Hm Hhi. cbn [SpecFloat.valid_binary] in Hv.
  unfold bounded, canonical_mantissa in Hv.
  apply andb_true_iff in Hv as [Hc _]. apply Z.eqb_eq in Hc.
  rewrite fexp_eq in Hc. unfold SFbetween, mag in Hm.
  unfold SFltb. cbn [SFcompare].
  assert (e < -50)%Z as He by lia.
  apply Z.compare_lt_iff in He. by rewrite He.
Qed.

End Binary64.

(** ** The reconstruction scorer

    [DataModel._approx_keras_binary_cross_entropy] does not read [self].
    [np.log], [np.exp] and [np.mean] are numpy's; the comparisons and the
    four arithmetic operations are IEEE 754 binary64. *)

Module Scorer.
Import Binary64.

Local Open Scope float_scope.

Section WithNumpy.

Variables np_log np_exp : float -> float.
Variable np_mean : list float -> float.

(** [x[x < epsilon] = epsilon; x[x > (1 - epsilon)] = (1 - epsilon)] *)
Definition clip (epsilon : float) (x : ndarray) : ndarray :=
  let x := Np.mask_assign (fun e => e <? epsilon) epsilon x in
  Np.mask_assign (fun e => 1 - epsilon <? e) (1 - epsilon) x.

(** Everything after the clip: the logit and the mean cross entropy. *)
Definition cross_entropy_of_clipped (x z : ndarray) (p : Z) : result float :=
  let x := map (map (fun e => np_log (e / (1 - e)))) x in
  a ← Np.broadcast2 (fun xe ze => (- xe) * ze) x z;
  b ← Np.broadcast2 add a (map (map (fun e => np_log (1 + np_exp e))) x);
  mret (np_mean (map (fun m => Np.of_int p * m) (map np_mean b))).

Definition _approx_keras_binary_cross_entropy
    (x z : ndarray) (p : Z) (epsilon : float) : result float :=
  cross_entropy_of_clipped (clip epsilon x) z p.

End WithNumpy.

(** The default of the keyword argument [epsilon]. *)
Definition epsilon_default : float := 0x1.ad7f29abcaf48p-24. (* 1e-07 *)

(** [e] lies in the closed interval from epsilon to 1 - epsilon. *)
Definition inside (epsilon e : float) : bool :=
  (epsilon <=? e) && (e <=? 1 - epsilon).

Definition all_inside (epsilon : float) (x : ndarray) : bool :=
  forallb (forallb (inside epsilon)) x.

Definition no_nan (x : ndarray) : bool :=
  forallb (forallb (fun e => negb (is_nan e))) x.

(** Two arrays of one shape. *)
Definition same_shape (x z : ndarray) : Prop :=
  Forall2 (fun r1 r2 : list float => length r1 = length r2) x z.

(** *** The clip step, one entry at a time *)

Definition clip1 (epsilon e : float) : float :=
  let e1 := if e <? epsilon then epsilon else e in
  if 1 - epsilon <? e1 then 1 - epsilon else e1.

Lemma clip_map (epsilon : float) (x : ndarray) :
  clip epsilon x = map (map (clip1 epsilon)) x.
Proof.
  unfold clip, Np.mask_assign. rewrite map_map.
  apply map_ext; intros row. rewrite map_map. reflexivity.
Qed.

Lemma clip1_inside (epsilon e : float) :
  inside epsilon e = true -> clip1 epsilon e = e.
Proof.
  unfold inside, clip1. intros [Hlo Hhi]%andb_true_iff.
  rewrite (ltb_false_of_leb _ _ Hlo). simpl.
  rewrite (ltb_false_of_leb _ _ Hhi). reflexivity.
Qed.

Lemma clip1_clamps (e : float) :
  is_nan e = false -> inside epsilon_default (clip1 epsilon_default e) = true.
Proof.
  intros He. unfold clip1.
  destruct (e <? epsilon_default) eqn:Hlo; cbv beta iota zeta.
  - vm_compute. reflexivity.
  - destruct (1 - epsilon_default <? e) eqn:Hhi.
    + vm_compute. reflexivity.
    + unfold inside. apply andb_true_iff; split.
      * apply leb_of_ltb_false; [exact He | reflexivity | exact Hlo].
      * apply leb_of_ltb_false; [reflexivity | exact He | exact Hhi].
Qed.

Lemma clip_inside (epsilon : float) (x : ndarray) :
  all_inside epsilon x = true -> clip epsilon x = x.
Proof.
  rewrite clip_map. unfold all_inside. intros H.
  rewrite <- (map_id x) at 2. apply map_ext_in; intros row Hrow.
  rewrite forallb_forall in H. specialize (H row Hrow).
  rewrite <- (map_id row) at 2. apply map_ext_in; intros e He.
  rewrite forallb_forall in H. apply clip1_inside, H, He.
Qed.

Lemma clip_clamps (x : ndarray) :
  no_nan x = true -> all_inside epsilon_default (clip epsilon_default x) = true.
Proof.
  rewrite clip_map. unfold all_inside, no_nan. intros H.
  apply forallb_forall; intros row' [row [<- Hrow]]%in_map_iff.
  rewrite forallb_forall in H. specialize (H row Hrow).
  apply forallb_forall; intros e' [e [<- He]]%in_map_iff.
  rewrite forallb_forall in H. apply clip1_clamps.
  apply negb_true_iff, H, He.
Qed.

(** *** Shapes *)

Lemma broadcast_row (g : float -> float -> float) (r1 r2 : list float) :
  length r1 = length r2 ->
  exists r, Np.broadcast (fun a b => mret (g a b)) r1 r2 = inr r
            /\ length r1 = length r.
Proof.
  intros Hlen. unfold Np.broadcast.
  rewrite (proj2 (Nat.eqb_eq _ _) Hlen).
  destruct (mapM_Forall2 (fun p : float * float => mret (g p.1 p.2))
              (fun _ _ => True) (zip r1 r2)) as (r & Hr & HF).
  { apply Forall_forall. intros p _. by eexists. }
  exists r. split; [exact Hr|].
  apply Forall2_length in HF. rewrite length_zip_with in HF. lia.
Qed.

Lemma broadcast2_same_shape (g : float -> float -> float) (x z : ndarray) :
  same_shape x z ->
  exists a, Np.broadcast2 g x z = inr a /\ same_shape x a.
Proof.
  intros Hs. unfold Np.broadcast2, Np.broadcast at 1.
  rewrite (proj2 (Nat.eqb_eq _ _) (Forall2_length _ _ _ Hs)).
  induction Hs as [|r1 r2 x z Hlen _ (a & Ha & Hsa)].
  { exists []. split; [done|constructor]. }
  destruct (broadcast_row g r1 r2 Hlen) as (r & Hr & Hlr).
  exists (r :: a). simpl. rewrite Hr. simpl. rewrite Ha.
  split; [done|]. by constructor.
Qed.

Lemma same_shape_sym (x z : ndarray) : same_shape x z -> same_shape z x.
Proof. induction 1; constructor; auto. Qed.

Lemma same_shape_trans (x y z : ndarray) :
  same_shape x y -> same_shape y z -> same_shape x z.
Proof.
  intros Hxy. revert z. induction Hxy as [|r1 r2 x y Hr _ IH]; intros z Hyz;
    inversion Hyz; subst; [constructor|].
  constructor; [congruence|]. by apply IH.
Qed.

Lemma same_shape_map (f : float -> float) (x : ndarray) :
  same_shape (map (map f) x) x.
Proof.
  induction x as [|r x IH]; constructor; [apply length_map|exact IH].
Qed.

(** On a target of the shape of the reconstruction the scorer raises
    nothing. *)
Lemma score_same_shape (np_log np_exp : float -> float)
    (np_mean : list float -> float) (x z : ndarray) (p : Z) (eps : float) :
  same_shape x z ->
  is_ok (_approx_keras_binary_cross_entropy np_log np_exp np_mean x z p eps)
  = true.
Proof.
  intros Hs.
  unfold _approx_keras_binary_cross_entropy, cross_entropy_of_clipped.
  rewrite clip_map.
  set (x' := map (map _) (map (map _) x)).
  assert (same_shape x' x) as Hx'.
  { unfold x'. eapply same_shape_trans; apply same_shape_map. }
  destruct (broadcast2_same_shape (fun xe ze => - xe * ze) x' z)
    as (a & -> & Ha).
  { by eapply same_shape_trans. }
  simpl.
  destruct (broadcast2_same_shape add a
              (map (map (fun e => np_log (1 + np_exp e))) x'))
    as (b & -> & _); [|done].
  eapply same_shape_trans; [apply same_shape_sym, Ha|].
  apply same_shape_sym, same_shape_map.
Qed.

(** *** The clamp, as the specification words it *)

Definition clamp (lo hi e : float) : float :=
  if e <? lo then lo else if hi <? e then hi else e.

Lemma clip1_clamp (e : float) :
  clip1 epsilon_default e
  = clamp epsilon_default (1 - epsilon_default) e.
Proof.
  unfold clip1, clamp. destruct (e <? epsilon_default); [|reflexivity].
  cbv beta iota zeta.
  replace (1 - epsilon_default <? epsilon_default) with false
    by (vm_compute; reflexivity).
  reflexivity.
Qed.

Lemma clip_clamp (x : ndarray) :
  clip epsilon_default x
  = map (map (clamp epsilon_default (1 - epsilon_default))) x.
Proof.
  rewrite clip_map. apply map_ext; intros row.
  apply map_ext; intros e. apply clip1_clamp.
Qed.

(** *** When the score is a finite number

    What is used of numpy's [log], [exp] and [mean], in powers of two: the
    logarithm of a positive number between 2^-(k+1) and 2^k is a number of
    absolute value below 2^(log2 k + 1); the exponential of a number of
    absolute value below 2^8 is a positive number between 2^-371 and
    2^370; the mean of fewer than 2^63 numbers of absolute value below
    2^k, for k up to 960, is a number of absolute value below
    2^(k+1). *)

Definition log_law (np_log : float -> float) : Prop :=
  forall (k : Z) (v : float),
    (1 <= k)%Z -> between (- k) k v -> below (Z.log2_up k + 1) (np_log v).

Definition exp_law (np_exp : float -> float) : Prop :=
  forall v : float, below 8 v -> between (-370) 370 (np_exp v).

Definition mean_law (np_mean : list float -> float) : Prop :=
  forall (k : Z) (l : list float),
    l <> [] -> (Z.of_nat (length l) < 2 ^ 63)%Z -> Forall (below k) l ->
    (-1074 <= k <= 960)%Z -> below (k + 1) (np_mean l).

(** Every entry of an array has a property. *)
Definition entries (P : float -> Prop) (x : ndarray) : Prop :=
  Forall (Forall P) x.

(** An array with at least one row and one column, and fewer than 2^63 of
    each. *)
Definition sized (x : ndarray) : Prop :=
  x <> [] /\ (Z.of_nat (length x) < 2 ^ 63)%Z
  /\ Forall (fun row => row <> [] /\ (Z.of_nat (length row) < 2 ^ 63)%Z) x.

Lemma entries_map (P Q : float -> Prop) (f : float -> float) (x : ndarray) :
  (forall e, P e -> Q (f e)) -> entries P x -> entries Q (map (map f) x).
Proof.
  intros Hf Hx. apply Forall_fmap. eapply Forall_impl; [exact Hx|].
  intros row Hrow. apply Forall_fmap. eapply Forall_impl; [exact Hrow|].
  exact Hf.
Qed.

Lemma broadcast_row_entries (g : float -> float -> float)
    (P Q R : float -> Prop) (r1 r2 : list float) :
  (forall a b, P a -> Q b -> R (g a b)) ->
  length r1 = length r2 -> Forall P r1 -> Forall Q r2 ->
  exists r, Np.broadcast (fun a b => mret (g a b)) r1 r2 = inr r
            /\ length r1 = length r /\ Forall R r.
Proof.
  intros Hg Hlen H1 H2. unfold Np.broadcast.
  rewrite (proj2 (Nat.eqb_eq _ _) Hlen).
  revert r2 Hlen H2. induction H1 as [|a r1 Ha _ IH]; intros r2 Hlen H2.
  { destruct r2; [|done]. by exists []. }
  destruct H2 as [|b r2 Hb H2]; [done|].
  destruct (IH r2 ltac:(by injection Hlen) H2) as (r & Hr & Hlr & HR).
  exists (g a b :: r). simpl. rewrite Hr. simpl.
  split; [done|]. split; [by rewrite Hlr|]. constructor; [by apply Hg|done].
Qed.

Lemma broadcast2_entries (g : float -> float -> float)
    (P Q R : float -> Prop) (x z : ndarray) :
  (forall a b, P a -> Q b -> R (g a b)) ->
  same_shape x z -> entries P x -> entries Q z ->
  exists a, Np.broadcast2 g x z = inr a /\ same_shape x a /\ entries R a.
Proof.
  intros Hg Hs. unfold Np.broadcast2, Np.broadcast at 1.
  rewrite (proj2 (Nat.eqb_eq _ _) (Forall2_length _ _ _ Hs)).
  induction Hs as [|r1 r2 x z Hlen _ IH]; intros Hx Hz.
  { exists []. repeat split; constructor. }
  apply Forall_cons in Hx as [Hr1 Hx]. apply Forall_cons in Hz as [Hr2 Hz].
  destruct (IH Hx Hz) as (a & Ha & Hsa & HRa).
  destruct (broadcast_row_entries g P Q R r1 r2 Hg Hlen Hr1 Hr2)
    as (r & Hr & Hlr & HR).
  exists (r :: a). simpl. rewrite Hr. simpl. rewrite Ha.
  split; [done|]. split; by constructor.
Qed.

Lemma sized_same_shape (x z : ndarray) :
  same_shape x z -> sized x -> sized z.
Proof.
  intros Hs (Hne & Hlen & Hrows). unfold sized.
  rewrite <- (Forall2_length _ _ _ Hs). split; [|split; [done|]].
  - intros ->. apply Forall2_nil_inv_r in Hs. done.
  - clear Hne Hlen. induction Hs as [|r1 r2 x z Hr _ IH]; [constructor|].
    apply Forall_cons in Hrows as [[Hr1 Hl1] Hrows].
    constructor; [|by apply IH]. rewrite <- Hr. split; [|done].
    intros ->. by destruct r1.
Qed.

(** The logit of an entry of the clipped reconstruction. *)
Lemma logit_below (np_log : float -> float) (e : float) :
  log_law np_log -> inside epsilon_default e = true ->
  below 8 (np_log (e / (1 - e))).
Proof.
  intros Hlog [Hlo Hhi]%andb_true_iff.
  pose proof (within_eps_between e Hlo Hhi) as He.
  pose proof (one_minus_between e Hlo Hhi) as Hd.
  pose proof (div_between (-23) 0 (-75) 1 e (1 - e) He Hd
                ltac:(lia) ltac:(lia)) as Hq.
  apply (Hlog 77%Z); [lia|].
  eapply between_mono; [| |exact Hq]; lia.
Qed.

(** The softplus term of an entry. *)
Lemma softplus_below (np_log np_exp : float -> float) (l : float) :
  log_law np_log -> exp_law np_exp -> below 8 l ->
  below 10 (np_log (1 + np_exp l)).
Proof.
  intros Hlog Hexp Hl.
  pose proof (one_plus_between (-370) 370 _ (Hexp l Hl) ltac:(lia)) as Ht.
  apply (Hlog 372%Z); [lia|].
  eapply between_mono; [| |exact Ht]; lia.
Qed.

(** On a reconstruction without NaN entries and a target of its shape
    with entries of absolute value below 2^800, the score is a finite
    number. *)
Lemma score_finite (np_log np_exp : float -> float)
    (np_mean : list float -> float) (x z : ndarray) (p : Z) :
  log_law np_log -> exp_law np_exp -> mean_law np_mean ->
  no_nan x = true -> sized x -> same_shape x z ->
  entries (below 800) z -> (- 2 ^ 63 < p < 2 ^ 63)%Z ->
  exists v,
    _approx_keras_binary_cross_entropy np_log np_exp np_mean x z p
                                       epsilon_default = inr v
    /\ is_finite v = true.
Proof.
  intros Hlog Hexp Hmean Hnan Hsized Hshape Hz Hp.
  unfold _approx_keras_binary_cross_entropy, cross_entropy_of_clipped.
  set (x' := clip epsilon_default x).
  assert (entries (fun e => inside epsilon_default e = true) x') as Hin.
  { pose proof (clip_clamps x Hnan) as Hc. fold x' in Hc.
    unfold all_inside in Hc. apply Forall_forall. intros row Hrow.
    rewrite forallb_forall in Hc. apply list_elem_of_In in Hrow.
    specialize (Hc row Hrow). apply Forall_forall. intros e He.
    rewrite forallb_forall in Hc. by apply Hc, list_elem_of_In. }
  assert (same_shape x' x) as Hx'.
  { unfold x'. rewrite clip_map. apply same_shape_map. }
  set (L := map (map (fun e => np_log (e / (1 - e)))) x').
  assert (entries (below 8) L) as HL.
  { unfold L. eapply entries_map; [|exact Hin].
    intros e He. by apply logit_below. }
  assert (same_shape L x) as HLx.
  { eapply same_shape_trans; [apply same_shape_map|exact Hx']. }
  destruct (broadcast2_entries (fun xe ze => - xe * ze)
              (below 8) (below 800) (below 809) L z)
    as (a & -> & HLa & Ha); [| |done|done|].
  { intros u w Hu Hw.
    apply (mul_below 8 800); [by apply opp_below|done|lia]. }
  { by eapply same_shape_trans. }
  cbn [mbind result_bind].
  set (T := map (map (fun e => np_log (1 + np_exp e))) L).
  assert (entries (below 809) T) as HT.
  { unfold T. eapply entries_map; [|exact HL].
    intros l Hl. eapply below_mono; [|by apply softplus_below]. lia. }
  assert (same_shape a T) as HaT.
  { eapply same_shape_trans; [apply same_shape_sym, HLa|].
    apply same_shape_sym, same_shape_map. }
  destruct (broadcast2_entries PrimFloat.add
              (below 809) (below 809) (below 811) a T)
    as (b & -> & Hab & Hb); [|done|done|done|].
  { intros u w Hu Hw. apply (add_below 809); [done|done|lia]. }
  cbn [mbind result_bind mret result_ret].
  eexists. split; [reflexivity|].
  assert (sized b) as (Hbne & Hblen & Hbrows).
  { apply (sized_same_shape x); [|done].
    eapply same_shape_trans; [apply same_shape_sym, HLx|].
    eapply same_shape_trans; [exact HLa|exact Hab]. }
  apply (below_is_finite 878).
  apply (Hmean 877%Z); [|by rewrite !length_map| |lia].
  { by destruct b. }
  apply Forall_fmap, Forall_fmap, Forall_forall. intros row Hrow. simpl.
  rewrite Forall_forall in Hbrows. destruct (Hbrows row Hrow) as [Hne Hlen].
  apply (mul_below 64 812); [by apply of_int_below| |lia].
  apply (Hmean 811%Z); [done|done| |lia].
  unfold entries in Hb. rewrite Forall_forall in Hb. by apply Hb.
Qed.


(** Stand-ins for numpy that have the three properties, for the examples:
    a logarithm in two steps (0 below 4, 2 from 4 on), an exponential that
    is 1 on every number, both NaN on NaN; and for the mean the first
    element, NaN on an empty list as numpy's. *)
Definition log_example (v : float) : float :=
  if is_nan v then nan else if v <? 4 then 0 else 2.
Definition exp_example (v : float) : float :=
  if is_nan v then nan else 1.
Definition mean_example (l : list float) : float :=
  match l with [] => nan | v :: _ => v end.

Lemma log_example_law : log_law log_example.
Proof.
  intros k v Hk Hv. unfold log_example.
  rewrite (between_not_nan _ _ _ Hv).
  destruct (v <? 4) eqn:H4; [exact I|].
  assert (2 <= k)%Z as Hk2.
  { destruct (Z.le_gt_cases 2 k) as [|Hlt]; [done|].
    rewrite (between_lt_four (- k) k v Hv) in H4; [done|lia]. }
  pose proof (Z.log2_up_pos k ltac:(lia)) as Hl.
  unfold below. change (Prim2SF 2) with (S754_finite false 4503599627370496 (-51)).
  unfold SFbelow, mag. change (Z.pos (digits2_pos 4503599627370496)) with 53%Z.
  lia.
Qed.

Lemma exp_example_law : exp_law exp_example.
Proof.
  intros v Hv. unfold exp_example. rewrite (below_not_nan _ _ Hv).
  unfold between. vm_compute. split; discriminate.
Qed.

Lemma mean_example_law : mean_law mean_example.
Proof.
  intros k l Hne _ Hl _. destruct l as [|v l]; [done|].
  apply Forall_cons in Hl as [Hv _]. simpl.
  eapply below_mono; [|exact Hv]. lia.
Qed.



(** What else the score being a finite number depends on.  A target that
    has not the shape of the reconstruction, and cannot be broadcast to
    it, makes the scorer raise. *)
Lemma score_shape_mismatch :
  _approx_keras_binary_cross_entropy log_example exp_example mean_example
    [[2; 2]] [[1; 1; 1]] 2 epsilon_default
  = inl (ValueError "operands could not be broadcast together").
Proof. vm_compute. reflexivity. Qed.

(** A target entry of 2^1023 makes the product with the logit overflow:
    the score is minus infinity. *)
Lemma score_huge_target :
  exists v,
    _approx_keras_binary_cross_entropy log_example exp_example mean_example
      [[2]] [[0x1p1023]] 2 epsilon_default = inr v
    /\ is_finite v = false /\ is_infinity v = true.
Proof.
  eexists. split; [vm_compute; reflexivity|]. split; vm_compute; reflexivity.
Qed.

(** A reconstruction with a row and no column has the mean of no number
    for its score, which is NaN. *)
Lemma score_no_column :
  exists v,
    _approx_keras_binary_cross_entropy log_example exp_example mean_example
      [[]] [[]] 2 epsilon_default = inr v
    /\ is_nan v = true.
Proof. eexists. split; vm_compute; reflexivity. Qed.

End Scorer.

(** ** pandas data frames *)

(** Row and column labels are strings or integers ([RangeIndex], Entrez
    gene ids). *)
Inductive label : Type :=
| LStr (s : string)
| LInt (z : Z).

#[export] Instance label_eq_dec : EqDecision label.
Proof. solve_decision. Defined.

Record DataFrame : Type := mkFrame {
  index : list label;
  columns : list label;
  values : ndarray
}.

Module Pd.

(** [Index.astype('str')] *)
Definition astype_str (l : label) : label :=
  match l with
  | LStr s => LStr s
  | LInt z => LStr (pretty z)
  end.

Definition shape (d : DataFrame) : nat * nat :=
  (length (index d), length (columns d)).

(** [pd.DataFrame(data, index=index, columns=columns)] on a 2-d array:
    the labels must fit the shape of the data. *)
Definition DataFrame_new (data : ndarray) (idx cols : list label)
    : result DataFrame :=
  if bool_decide (length data = length idx)
     && forallb (fun row => bool_decide (length row = length cols)) data
  then mret (mkFrame idx cols data)
  else raise (ValueError "Shape of passed values does not match the indices").

(** Column [j] of every row. *)
Definition column (j : nat) (a : ndarray) : list float :=
  map (fun row => default nan (row !! j)) a.

(** [DataFrame.T] *)
Definition T (d : DataFrame) : DataFrame :=
  mkFrame (columns d) (index d)
          (map (fun j => column j (values d)) (seq 0 (length (columns d)))).

(** A position of [iloc] against an axis of length [n]: negative positions
    count from the end, anything else out of range is an error. *)
Definition position (n : nat) (p : Z) : result nat :=
  if bool_decide (0 <= p < Z.of_nat n) then mret (Z.to_nat p)
  else if bool_decide (- Z.of_nat n <= p < 0)
       then mret (Z.to_nat (Z.of_nat n + p))
  else raise (IndexError "positional indexers are out-of-bounds").

(** [df.iloc[:, positions]] *)
Definition iloc_columns (d : DataFrame) (ps : list Z) : result DataFrame :=
  js ← mapM (position (length (columns d))) ps;
  mret (mkFrame (index d)
                (map (fun j => default (LInt (Z.of_nat j)) (columns d !! j)) js)
                (map (fun row => map (fun j => default nan (row !! j)) js)
                     (values d))).

(** Position of the first column labelled [l]. *)
Fixpoint find_label (l : label) (cols : list label) : option nat :=
  match cols with
  | [] => None
  | c :: cols' =>
    if decide (c = l) then Some 0%nat else S <$> find_label l cols'
  end.

(** [df[labels]]: every label must name a column. *)
Definition getitem_columns (d : DataFrame) (ls : list label)
    : result DataFrame :=
  js ← mapM (fun l => match find_label l (columns d) with
                      | Some j => mret j
                      | None => raise (KeyError "not in index")
                      end) ls;
  mret (mkFrame (index d) ls
                (map (fun row => map (fun j => default nan (row !! j)) js)
                     (values d))).

(** Union of column labels, in order of first appearance. *)
Definition union_labels (ls : list (list label)) : list label :=
  foldl (fun acc l => if decide (l ∈ acc) then acc else (acc ++ [l])%list)
        [] (concat ls).

(** The rows of [d] laid out on the columns [cols]; a column that [d] does
    not have is filled with NaN. *)
Definition reindex_columns (cols : list label) (d : DataFrame) : ndarray :=
  map (fun row => map (fun c => match find_label c (columns d) with
                                | Some j => default nan (row !! j)
                                | None => nan
                                end) cols)
      (values d).

(** [pd.concat(frames, axis=0)] *)
Definition concat_rows (frames : list DataFrame) : result DataFrame :=
  match frames with
  | [] => raise (ValueError "No objects to concatenate")
  | _ =>
    let cols := union_labels (map columns frames) in
    mret (mkFrame (concat (map index frames)) cols
                  (concat (map (reindex_columns cols) frames)))
  end.

(** [df.rename({old: new}, axis='columns')] *)
Definition rename_column (old new : label) (d : DataFrame) : DataFrame :=
  mkFrame (index d)
          (map (fun c => if decide (c = old) then new else c) (columns d))
          (values d).

End Pd.

(** ** Python values and objects *)

(** A scikit-learn estimator: its constructor arguments, and what a fit
    leaves on it. *)
Record Estimator : Type := mkEstimator {
  est_class : string;
  n_components : option Z;
  init : option string;
  tol : option float;
  random_state : option Z;
  components_ : option ndarray;
  n_components_ : option Z;
  statistics_ : ndarray
}.

Inductive pyval : Type :=
| PNone
| PBool (b : bool)
| PInt (z : Z)
| PStr (s : string)
| PFrame (d : DataFrame)
| PArray (a : ndarray)
| PEstimator (e : Estimator).

(** What the code asks of scikit-learn.  [fit] and [fit_transform] mutate
    the estimator they are called on; here they return it. *)
Record Sklearn : Type := mkSklearn {
  sk_fit : Estimator -> pyval -> result Estimator;
  sk_fit_transform : Estimator -> pyval -> result (Estimator * ndarray);
  sk_transform : Estimator -> pyval -> result ndarray
}.

(** What the code asks of the file system and of the PLIER subprocess, on a
    world [W] that they may change. *)
Record World (W : Type) : Type := mkWorld {
  read_table : string -> M W DataFrame;
  read_csv : string -> M W DataFrame;
  path_exists : string -> M W bool;
  makedirs : string -> M W unit;
  write_temp : DataFrame -> M W string;
  check_call : list string -> M W unit;
  close_temp : string -> M W unit
}.

Arguments read_table {W}.
Arguments read_csv {W}.
Arguments path_exists {W}.
Arguments makedirs {W}.
Arguments write_temp {W}.
Arguments check_call {W}.
Arguments close_temp {W}.

(** The [config] module ([import config as cfg]). *)
Record Config : Type := mkConfig {
  data_dir : string;
  scripts_dir : string
}.

Definition on_world {W S A} (m : M W A) : M (W * S) A := fun ws =>
  let '(r, w') := m ws.1 in (r, (w', ws.2)).

Definition on_self {W S A} (m : M S A) : M (W * S) A := fun ws =>
  let '(r, s') := m ws.2 in (r, (ws.1, s')).

(** [os.path.join(a, b)] *)
Definition path_join (a b : string) : string :=
  if String.prefix "/" b then b
  else if decide (a = "") then b
  else if String.eqb (String.substring (String.length a - 1)%nat 1%nat a) "/"
       then a +:+ b
       else a +:+ "/" +:+ b.

(** [range(a, b)] *)
Definition range (a b : Z) : list Z :=
  map (fun i => a + Z.of_nat i) (seq 0 (Z.to_nat (b - a))).

(** [max] of a list of ints. *)
Definition max_list (l : list Z) : result Z :=
  match l with
  | [] => raise (ValueError "max() arg is an empty sequence")
  | x :: l' => mret (foldl Z.max x l')
  end.

(** ** class DataModel *)

Module DataModel.

(** Attribute access on the instance. *)
Definition getattr (name : string) : M (gmap string pyval) pyval := fun self =>
  match self !! name with
  | Some v => (inr v, self)
  | None => (inl (AttributeError name), self)
  end.

Definition setattr (name : string) (v : pyval) : M (gmap string pyval) unit :=
  modify (insert name v).

Definition hasattr (name : string) : M (gmap string pyval) bool := fun self =>
  (inr (bool_decide (is_Some (self !! name))), self).

(** Attribute access on values: [v.shape], [v.index], [v.columns],
    [v.iloc[:, ps]], [v[labels]], [v.components_]. *)
Definition as_frame (what : string) (v : pyval) : result DataFrame :=
  match v with
  | PFrame d => mret d
  | _ => raise (AttributeError what)
  end.

Definition shape_of (v : pyval) : result (nat * nat) :=
  match v with
  | PFrame d => mret (Pd.shape d)
  | PArray a => mret (length a, length (default [] (head a)))
  | _ => raise (AttributeError "shape")
  end.

Definition getitem (v : pyval) (ls : list label) : result DataFrame :=
  match v with
  | PFrame d => Pd.getitem_columns d ls
  | PNone => raise (TypeError "'NoneType' object is not subscriptable")
  | _ => raise (TypeError "object is not subscriptable by a list of labels")
  end.

Definition as_estimator (v : pyval) : result Estimator :=
  match v with
  | PEstimator e => mret e
  | _ => raise (AttributeError "transform")
  end.

Definition get_components (e : Estimator) : result ndarray :=
  match components_ e with
  | Some c => mret c
  | None => raise (AttributeError "components_")
  end.

(** [==] on the two gene counts. *)
Definition int_eq (a b : pyval) : bool :=
  match a, b with
  | PInt x, PInt y => bool_decide (x = y)
  | _, _ => false
  end.

Definition is_none (v : pyval) : bool :=
  match v with PNone => true | _ => false end.

(** Truth value of the [select_columns] argument: [False] (the default),
    or a list of column positions. *)
Definition truthy (select_columns : option (list Z)) : bool :=
  match select_columns with
  | None | Some [] => false
  | Some (_ :: _) => true
  end.

Section WithLibraries.

Context (sk : Sklearn) {W : Type} (world : World W) (cfg : Config).

(** [DataModel.__init__].  [filename] and [test_filename] are [None] or a
    path; [df] and [test_df] are whatever the caller passes ([False] and
    [None] by default); [gene_modules] is [None] or a list of module ids.
    The instance starts without attributes. *)
Definition __init__ (filename : option string) (df : pyval)
    (select_columns : option (list Z)) (gene_modules : option (list Z))
    (test_filename : option string) (test_df : pyval)
    : M (W * gmap string pyval) unit :=
  on_self (setattr "filename" (from_option PStr PNone filename));;
  match filename with
  | None => on_self (setattr "df" df)
  | Some f => d ← on_world (read_table world f);
              on_self (setattr "df" (PFrame d))
  end;;
  (if truthy select_columns then
     let select_columns := default [] select_columns in
     self_df ← on_self (getattr "df");
     d ← lift (as_frame "iloc" self_df);
     subset_df ← lift (Pd.iloc_columns d select_columns);
     m ← lift (max_list select_columns);
     self_df ← on_self (getattr "df");
     sh ← lift (shape_of self_df);
     let other_columns := range (m + 1) (Z.of_nat sh.2) in
     d ← lift (as_frame "iloc" self_df);
     other ← lift (Pd.iloc_columns d other_columns);
     on_self (setattr "other_df" (PFrame other));;
     on_self (setattr "df" (PFrame subset_df));;
     t ← on_self (getattr "test_df");
     if negb (is_none t) then
       t ← on_self (getattr "test_df");
       td ← lift (as_frame "iloc" t);
       sub ← lift (Pd.iloc_columns td select_columns);
       on_self (setattr "test_df" (PFrame sub))
     else mret tt
   else mret tt);;
  match gene_modules with
  | Some g =>
    match g with
    | [] =>
      on_self (setattr "gene_modules" (PFrame (mkFrame [] [] [])));;
      throw (ValueError "Length mismatch: expected axis has 0 elements")
    | _ =>
      on_self (setattr "gene_modules"
        (PFrame (mkFrame [LStr "modules"]
                         (map (fun i => LInt (Z.of_nat i)) (seq 0 (length g)))
                         [map Np.of_int g])))
    end
  | None => mret tt
  end;;
  self_df ← on_self (getattr "df");
  sh ← lift (shape_of self_df);
  on_self (setattr "num_samples" (PInt (Z.of_nat sh.1)));;
  on_self (setattr "num_genes" (PInt (Z.of_nat sh.2)));;
  on_self (setattr "test_filename" (from_option PStr PNone test_filename));;
  on_self (setattr "test_df" test_df);;
  match test_filename with
  | Some tf =>
    if is_none test_df then
      d ← on_world (read_table world tf);
      on_self (setattr "test_df" (PFrame d));;
      t ← on_self (getattr "test_df");
      tsh ← lift (shape_of t);
      on_self (setattr "num_test_samples" (PInt (Z.of_nat tsh.1)));;
      on_self (setattr "num_test_genes" (PInt (Z.of_nat tsh.2)));;
      g ← on_self (getattr "num_genes");
      tg ← on_self (getattr "num_test_genes");
      if int_eq g tg then mret tt
      else throw (AssertionError
                    "train and test sets must have same number of genes")
    else mret tt
  | None => mret tt
  end.

(** Estimator constructors. *)
Definition new_estimator (cls : string) : Estimator :=
  mkEstimator cls None None None None None None [].

Definition StandardScaler : Estimator := new_estimator "StandardScaler".
Definition MinMaxScaler : Estimator := new_estimator "MinMaxScaler".

Definition PCA (k : Z) : Estimator :=
  mkEstimator "PCA" (Some k) None None None None None [].

Definition NMF (k : Z) (init : option string) (tol : option float)
    (seed : Z) : Estimator :=
  mkEstimator "NMF" (Some k) init tol (Some seed) None None [].

Definition as_array (v : pyval) : result ndarray :=
  match v with
  | PArray a => mret a
  | PFrame d => mret (values d)
  | _ => raise (ValueError "DataFrame constructor not properly called!")
  end.

(** [self.<attr>.index] and [self.<attr>.columns] *)
Definition index_of (attr : string) : M (gmap string pyval) (list label) :=
  v ← getattr attr; d ← lift (as_frame "index" v); mret (index d).

Definition columns_of (attr : string) : M (gmap string pyval) (list label) :=
  v ← getattr attr; d ← lift (as_frame "columns" v); mret (columns d).

(** [self.<attr>.transform(self.<data>)] *)
Definition call_transform (attr data : string)
    : M (gmap string pyval) ndarray :=
  f ← getattr attr; e ← lift (as_estimator f);
  x ← getattr data;
  lift (sk_transform sk e x).

(** [DataModel.transform] *)
Definition transform (how : string) : M (gmap string pyval) unit :=
  setattr "transformation" (PStr how);;
  (if decide (how = "zscore") then
     x ← getattr "df";
     e ← lift (sk_fit sk StandardScaler x);
     setattr "transform_fit" (PEstimator e)
   else if decide (how = "zeroone") then
     x ← getattr "df";
     e ← lift (sk_fit sk MinMaxScaler x);
     setattr "transform_fit" (PEstimator e)
   else throw (ValueError "how must be either 'zscore' or 'zeroone'."));;
  a ← call_transform "transform_fit" "df";
  idx ← index_of "df";
  cols ← columns_of "df";
  d ← lift (Pd.DataFrame_new a idx cols);
  setattr "df" (PFrame d);;
  t ← getattr "test_df";
  if negb (is_none t) then
    (if decide (how = "zscore") then
       x ← getattr "test_df";
       e ← lift (sk_fit sk StandardScaler x);
       setattr "transform_test_fit" (PEstimator e)
     else if decide (how = "zeroone") then
       x ← getattr "test_df";
       e ← lift (sk_fit sk MinMaxScaler x);
       setattr "transform_test_fit" (PEstimator e)
     else mret tt);;
    test_transform ← call_transform "transform_test_fit" "test_df";
    idx ← index_of "test_df";
    cols ← columns_of "test_df";
    d ← lift (Pd.DataFrame_new test_transform idx cols);
    setattr "test_df" (PFrame d)
  else mret tt.

(** [DataModel.list_algorithms] *)
Definition list_algorithms : list string := ["pca"; "nmf"; "plier"].

(** The bodies of [pca] and [nmf] differ in the estimator they construct
    and in the prefix of the attribute and column names; [sklearn_backend]
    is that body.  A method that ends without [return] returns [None]. *)
Definition sklearn_backend (name : string) (est : Estimator)
    (n_components : Z) (transform_df transform_test_df : bool)
    : M (gmap string pyval) pyval :=
  let a_fit := name +:+ "_fit" in
  let a_df := name +:+ "_df" in
  setattr a_fit (PEstimator est);;
  f ← getattr a_fit; e ← lift (as_estimator f);
  x ← getattr "df";
  r ← lift (sk_fit_transform sk e x);
  setattr a_fit (PEstimator r.1);;
  setattr a_df (PArray r.2);;
  let colnames :=
    map (fun x => LStr (name +:+ "_" +:+ pretty x)) (range 0 n_components) in
  z ← getattr a_df; z ← lift (as_array z);
  idx ← index_of "df";
  d ← lift (Pd.DataFrame_new z idx colnames);
  setattr a_df (PFrame d);;
  f ← getattr a_fit; e ← lift (as_estimator f);
  c ← lift (get_components e);
  cols ← columns_of "df";
  w ← lift (Pd.DataFrame_new c colnames cols);
  setattr (name +:+ "_weights") (PFrame w);;
  if transform_df then
    out_df ← call_transform a_fit "df";
    mret (PArray out_df)
  else if transform_test_df then
    out ← call_transform a_fit "test_df";
    setattr (name +:+ "_test_df") (PArray out);;
    mret PNone
  else mret PNone.

(** [DataModel.pca] *)
Definition pca (n_components : Z) (transform_df transform_test_df : bool)
    : M (gmap string pyval) pyval :=
  sklearn_backend "pca" (PCA n_components)
                  n_components transform_df transform_test_df.

(** [DataModel.nmf]; the defaults are [seed=1], [init='nndsvdar'],
    [tol=5e-3]. *)
Definition nmf (n_components : Z) (transform_df transform_test_df : bool)
    (seed : Z) (init : string) (tol : float)
    : M (gmap string pyval) pyval :=
  sklearn_backend "nmf" (NMF n_components (Some init) (Some tol) seed)
                  n_components transform_df transform_test_df.

(** [DataModel._plier_on_test_data] *)
Definition _plier_on_test_data (X B : DataFrame) (k seed : Z)
    : result ndarray :=
  let solver := NMF k None None seed in
  (* solver.n_components_ = n_components; solver.components_ = B *)
  let solver :=
    mkEstimator (est_class solver) (n_components solver) (init solver)
                (tol solver) (random_state solver)
                (Some (values B)) (Some k) (statistics_ solver) in
  sk_transform sk solver (PFrame X).

(** [DataModel.plier]; [seed=1] by default. *)
Definition plier (n_components : Z) (transform_df transform_test_df : bool)
    (seed : Z) : M (W * gmap string pyval) pyval :=
  let plier_output_dir := path_join (data_dir cfg) "plier_output" in
  ex ← on_world (path_exists world plier_output_dir);
  (if negb ex then on_world (makedirs world plier_output_dir) else mret tt);;
  let output_prefix :=
    path_join plier_output_dir
      ("plier_k" +:+ pretty n_components +:+ "_s" +:+ pretty seed) in
  let output_data := output_prefix +:+ "_z.tsv" in
  let output_weights := output_prefix +:+ "_b.tsv" in
  ex_data ← on_world (path_exists world output_data);
  ex_weights ← (if negb ex_data then mret true
                else on_world (path_exists world output_weights));
  (if negb ex_data || negb ex_weights then
     x ← on_self (getattr "df");
     d ← lift (as_frame "to_csv" x);
     tf ← on_world (write_temp world d);
     let args := ["Rscript"; path_join (scripts_dir cfg) "run_plier.R";
                  "--data"; tf;
                  "--k"; pretty n_components;
                  "--seed"; pretty seed;
                  "--output_prefix"; output_prefix] in
     on_world (check_call world args);;
     on_world (close_temp world tf)
   else mret tt);;
  b ← on_world (read_csv world output_weights);
  on_self (setattr "plier_df" (PFrame (Pd.T b)));;
  z ← on_world (read_csv world output_data);
  on_self (setattr "plier_weights" (PFrame (Pd.T z)));;
  t ← on_self (getattr "test_df");
  cols ← on_self (columns_of "plier_weights");
  test_df_filtered ← lift (getitem t (map Pd.astype_str cols));
  if transform_df then on_self (getattr "plier_df")
  else if transform_test_df then
    w ← on_self (getattr "plier_weights");
    w ← lift (as_frame "values" w);
    out ← lift (_plier_on_test_data test_df_filtered w n_components seed);
    on_self (setattr "plier_test_df" (PArray out));;
    mret PNone
  else mret PNone.

(** [pd.concat] accepts data frames only. *)
Definition concat_operand (v : pyval) : result DataFrame :=
  match v with
  | PFrame d => mret d
  | _ => raise (TypeError "cannot concatenate object of this type")
  end.

(** [if hasattr(self, probe): all_weight += [self.<attr>]] *)
Definition add_if_run (probe attr : string) (all_weight : list pyval)
    : M (gmap string pyval) (list pyval) :=
  run ← hasattr probe;
  if run : bool then w ← getattr attr; mret (all_weight ++ [w])%list
  else mret all_weight.

(** [DataModel.combine_weight_matrix] *)
Definition combine_weight_matrix : M (gmap string pyval) DataFrame :=
  let all_weight := [] in
  all_weight ← add_if_run "pca_df" "pca_weights" all_weight;
  all_weight ← add_if_run "nmf_df" "nmf_weights" all_weight;
  all_weight ← add_if_run "plier_df" "plier_weights" all_weight;
  frames ← lift (mapM concat_operand all_weight);
  c ← lift (Pd.concat_rows frames);
  let all_weight_df := Pd.T c in
  mret (Pd.rename_column (LStr "Unnamed: 0") (LStr "entrez_gene")
                         all_weight_df).

End WithLibraries.

(** *** Stand-ins for the libraries, to run the methods on examples

    A "projection on the first k coordinates" in place of PCA and NMF, an
    identity scaler, and a file system that is a list of paths with the
    frames stored under them and on which no [Rscript] can be run. *)

Definition fit_example (e : Estimator) (x : pyval) : result Estimator :=
  match x with
  | PFrame d =>
    mret (mkEstimator (est_class e) (n_components e) (init e) (tol e)
                      (random_state e) (components_ e) (n_components_ e)
                      (values d))
  | _ => raise (ValueError "Expected 2D array")
  end.

Definition unit_row (n i : nat) : list float :=
  map (fun j => if bool_decide (i = j) then 1%float else 0%float) (seq 0 n).

Definition fit_transform_example (e : Estimator) (x : pyval)
    : result (Estimator * ndarray) :=
  match x, n_components e with
  | PFrame d, Some k =>
    if bool_decide (0 < k <= Z.of_nat (length (columns d))) then
      let k := Z.to_nat k in
      mret (mkEstimator (est_class e) (n_components e) (init e) (tol e)
                        (random_state e)
                        (Some (map (unit_row (length (columns d))) (seq 0 k)))
                        (Some (Z.of_nat k)) (values d),
            map (take k) (values d))
    else raise (ValueError "n_components must be between 1 and n_features")
  | _, _ => raise (ValueError "Expected 2D array")
  end.

Definition transform_example (e : Estimator) (x : pyval) : result ndarray :=
  match x with
  | PFrame d =>
    mret (match components_ e with
          | Some c => map (take (length c)) (values d)
          | None => values d
          end)
  | _ => raise (ValueError "Expected 2D array")
  end.

Definition sk_example : Sklearn :=
  mkSklearn fit_example fit_transform_example transform_example.

Definition lookup_file (f : string) : M (list (string * DataFrame)) DataFrame :=
  fun w => match list_find (fun kv => kv.1 = f) w with
           | Some (_, (_, d)) => (inr d, w)
           | None => (inl (LibraryError "No such file or directory"), w)
           end.

Definition world_example : World (list (string * DataFrame)) :=
  mkWorld _ lookup_file lookup_file
    (fun f w => (inr (existsb (fun kv => String.prefix f kv.1) w), w))
    (fun _ w => (inr tt, w))
    (fun d w => (inr "/tmp/tmp0", (("/tmp/tmp0", d) :: w)))
    (fun _ w => (inl (LibraryError "Rscript returned non-zero exit status"), w))
    (fun f w => (inr tt, filter (fun kv => kv.1 <> f) w)).

Definition cfg_example : Config := mkConfig "data" "scripts".

(** Two samples, four genes. *)
Definition train_example : DataFrame :=
  mkFrame [LStr "s1"; LStr "s2"] [LStr "g1"; LStr "g2"; LStr "g3"; LStr "g4"]
          [[0.5; 0.25; 0.75; 1]; [0.25; 0.5; 1; 0.75]]%float.

Definition test_example : DataFrame :=
  mkFrame [LStr "t1"] [LStr "g1"; LStr "g2"; LStr "g3"; LStr "g4"]
          [[0.75; 0.5; 0.25; 1]]%float.

(** A test set with five genes instead of four. *)
Definition wide_example : DataFrame :=
  mkFrame [LStr "t1"] [LStr "g1"; LStr "g2"; LStr "g3"; LStr "g4"; LStr "g5"]
          [[0.75; 0.5; 0.25; 1; 0.5]]%float.

(** Cached PLIER outputs for k = 1 and seed = 1, as [pd.read_csv] loads
    them: the loadings Z (genes by factors) and the scores B (factors by
    samples). *)
Definition files_example : list (string * DataFrame) :=
  [("train.tsv", train_example);
   ("test.tsv", test_example);
   ("wide.tsv", wide_example);
   ("data/plier_output/plier_k1_s1_z.tsv",
    mkFrame [LStr "g1"; LStr "g2"; LStr "g3"; LStr "g4"] [LStr "LV1"]
            [[1]; [0]; [0]; [0]]%float);
   ("data/plier_output/plier_k1_s1_b.tsv",
    mkFrame [LStr "LV1"] [LStr "s1"; LStr "s2"] [[0.5; 0.25]]%float)].

(** [DataModel(df=train_example, test_df=test_example)] *)
Definition self_example : gmap string pyval :=
  (__init__ world_example None (PFrame train_example) None None None
            (PFrame test_example) (files_example, ∅)).2.2.

(** *** Attributes that a method leaves alone *)

Definition preserves {A} (a : string) (m : M (gmap string pyval) A) : Prop :=
  forall s, (m s).2 !! a = s !! a.

Lemma preserves_bind {A B} (a : string) (m : M (gmap string pyval) A)
    (k : A -> M (gmap string pyval) B) :
  preserves a m -> (forall x, preserves a (k x)) -> preserves a (m ≫= k).
Proof.
  intros Hm Hk s. unfold mbind, M_bind. specialize (Hm s).
  destruct (m s) as [[e|x] s']; simpl in *; [done|]. by rewrite Hk.
Qed.

Lemma preserves_ret {A} (a : string) (x : A) : preserves a (mret x).
Proof. by intros s. Qed.

Lemma preserves_throw {A} (a : string) (e : exn) : preserves a (@throw _ A e).
Proof. by intros s. Qed.

Lemma preserves_lift {A} (a : string) (r : result A) : preserves a (lift r).
Proof. by intros s. Qed.

Lemma preserves_getattr (a b : string) : preserves a (getattr b).
Proof. intros s. unfold getattr. by destruct (s !! b). Qed.

Lemma preserves_setattr (a b : string) (v : pyval) :
  a <> b -> preserves a (setattr b v).
Proof.
  intros Hab s. unfold setattr, modify. simpl. by apply lookup_insert_ne.
Qed.

Lemma preserves_call_transform (sk : Sklearn) (a f x : string) :
  preserves a (call_transform sk f x).
Proof.
  unfold call_transform.
  repeat first [apply preserves_bind; [|intros ?] | apply preserves_getattr
               | apply preserves_lift].
Qed.

Lemma preserves_index_of (a b : string) : preserves a (index_of b).
Proof.
  unfold index_of.
  repeat first [apply preserves_bind; [|intros ?] | apply preserves_getattr
               | apply preserves_lift | apply preserves_ret].
Qed.

Lemma preserves_columns_of (a b : string) : preserves a (columns_of b).
Proof.
  unfold columns_of.
  repeat first [apply preserves_bind; [|intros ?] | apply preserves_getattr
               | apply preserves_lift | apply preserves_ret].
Qed.

Ltac preserves_step :=
  first [ apply preserves_bind; [|intros ?]
        | apply preserves_getattr
        | apply preserves_lift
        | apply preserves_ret
        | apply preserves_throw
        | apply preserves_call_transform
        | apply preserves_index_of
        | apply preserves_columns_of
        | apply preserves_setattr; discriminate ].

(** With [transform_df] set, [pca] and [nmf] return before they reach the
    test projection. *)
Lemma sklearn_backend_returns_early (sk : Sklearn) (name : string)
    (est : Estimator) (k : Z) (transform_test_df : bool) :
  name = "pca" \/ name = "nmf" ->
  preserves (name +:+ "_test_df")
            (sklearn_backend sk name est k true transform_test_df).
Proof.
  intros [-> | ->]; unfold sklearn_backend; cbn [String.append];
    repeat preserves_step.
Qed.

Lemma sklearn_backend_returns_array (sk : Sklearn) (name : string)
    (est : Estimator) (k : Z) (transform_test_df : bool)
    (self self' : gmap string pyval) (v : pyval) :
  sklearn_backend sk name est k true transform_test_df self = (inr v, self') ->
  exists a, v = PArray a.
Proof.
  unfold sklearn_backend, mbind, M_bind. intros H.
  repeat match type of H with
         | (match ?m with _ => _ end) = _ =>
           destruct m as [[?|?] ?]; [discriminate|]
         | (let (_, _) := ?m in _) = _ => destruct m as [[?|?] ?]
         end.
  injection H as <- _. eauto.
Qed.

(** *** The value of one attribute as an invariant of a method *)

Definition attr_is {W} (a : string) (v : option pyval)
    (ws : W * gmap string pyval) : Prop :=
  ws.2 !! a = v.

Lemma keeps_on_world {W A} (a : string) (v : option pyval) (m : M W A) :
  keeps (attr_is a v) (on_world (S := gmap string pyval) m).
Proof.
  intros [w s] H. unfold on_world, attr_is in *. simpl in *.
  by destruct (m w).
Qed.

Lemma keeps_on_self {W A} (a : string) (v : option pyval)
    (m : M (gmap string pyval) A) :
  preserves a m -> keeps (attr_is (W := W) a v) (on_self m).
Proof.
  intros Hm [w s] H. unfold on_self, attr_is in *. simpl in *.
  specialize (Hm s). destruct (m s). simpl in *. congruence.
Qed.

Lemma never_after_getattr_unset {W B} (a : string)
    (k : pyval -> M (W * gmap string pyval) B) :
  never_returns (attr_is a None) (on_self (getattr a) ≫= k).
Proof.
  intros [w s] H. unfold attr_is in H. simpl in H.
  unfold mbind, M_bind, on_self, getattr. simpl. by rewrite H.
Qed.

Lemma never_after_getattr_value {W B} (a : string) (x : pyval)
    (k : pyval -> M (W * gmap string pyval) B) :
  never_returns (attr_is a (Some x)) (k x) ->
  never_returns (attr_is a (Some x)) (on_self (getattr a) ≫= k).
Proof.
  intros Hk [w s] H. pose proof H as H'. unfold attr_is in H'. simpl in H'.
  unfold mbind, M_bind, on_self, getattr. simpl. rewrite H'. by apply Hk.
Qed.

Ltac keeps_step :=
  first [ apply keeps_bind; [|intros ?]
        | apply keeps_on_world
        | apply keeps_ret
        | apply keeps_lift
        | apply keeps_throw
        | apply keeps_on_self;
          first [ apply preserves_getattr | apply preserves_columns_of
                | apply preserves_index_of
                | apply preserves_setattr; discriminate ]
        | match goal with
          | |- keeps _ (if ?b then _ else _) => destruct b
          | |- keeps _ (match ?o with Some _ => _ | None => _ end) => destruct o
          | |- keeps _ (match ?l with [] => _ | _ :: _ => _ end) => destruct l
          end ].

(** Walks down a method to the first read of [self.<a>], with the value of
    that attribute as the invariant of everything before it. *)
Ltac never_until_read a :=
  repeat lazymatch goal with
         | |- never_returns _ (on_self (getattr a) ≫= _) => fail
         | |- _ => apply never_bind_r; [solve [repeat keeps_step]|intros ?]
         end.

(** *** The claims on [DataModel] *)

(** C1.  With [transform_df] and [transform_test_df] both set, [pca] and
    [nmf] leave the test projection as it was before the call: the
    [return] of the in-sample embedding comes first. *)
Theorem both_flags_skip_test_projection (sk : Sklearn) (k seed : Z)
    (init : string) (tol : float) (self : gmap string pyval) :
  (pca sk k true true self).2 !! "pca_test_df" = self !! "pca_test_df"
  /\ (nmf sk k true true seed init tol self).2 !! "nmf_test_df"
     = self !! "nmf_test_df".
Proof.
  split.
  - apply (sklearn_backend_returns_early sk "pca"). by left.
  - apply (sklearn_backend_returns_early sk "nmf"). by right.
Qed.

(** C1 on an example: with both flags [pca] returns the embedding of the
    training matrix and stores no test projection; with
    [transform_test_df] alone it stores one. *)
Lemma pca_both_flags_example :
  (pca sk_example 1 true true self_example).1
  = inr (PArray [[0.5]; [0.25]]%float)
  /\ (pca sk_example 1 true true self_example).2 !! "pca_test_df" = None
  /\ (pca sk_example 1 false true self_example).2 !! "pca_test_df"
     = Some (PArray [[0.75]]%float).
Proof. vm_compute. auto. Qed.

(** [transform] on a mode that is neither of the two. *)
Lemma transform_invalid (sk : Sklearn) (how : string)
    (self : gmap string pyval) :
  how <> "zscore" -> how <> "zeroone" ->
  transform sk how self
  = (inl (ValueError "how must be either 'zscore' or 'zeroone'."),
     <["transformation" := PStr how]> self).
Proof. intros H1 H2. unfold transform. repeat case_decide; done. Qed.

(** C6, as amended.  For a mode other than the two scaling options
    [transform] raises a ValueError, and every attribute other than the
    stored transformation name is as it was before the call: the fitted
    scalers and the training and test matrices among them. *)
Theorem transform_invalid_mode (sk : Sklearn) (how : string)
    (self : gmap string pyval) :
  how <> "zscore" -> how <> "zeroone" ->
  (transform sk how self).1
  = inl (ValueError "how must be either 'zscore' or 'zeroone'.")
  /\ forall a, a <> "transformation" ->
               (transform sk how self).2 !! a = self !! a.
Proof.
  intros H1 H2. rewrite (transform_invalid sk how self H1 H2). split; [done|].
  intros a Ha. simpl. by apply lookup_insert_ne.
Qed.

Lemma transform_invalid_mode_witness :
  (transform sk_example "log" self_example).1
  = inl (ValueError "how must be either 'zscore' or 'zeroone'.")
  /\ (transform sk_example "log" self_example).2 !! "df"
     = self_example !! "df"
  /\ (transform sk_example "log" self_example).2 !! "test_df"
     = self_example !! "test_df".
Proof.
  destruct (transform_invalid_mode sk_example "log" self_example) as [H1 H2];
    [discriminate|discriminate|].
  split; [exact H1|]. split; apply H2; discriminate.
Defined.

(** C6, counterexample: the rejected mode has been stored as the
    transformation name of an instance that had none. *)
Lemma transform_invalid_mode_stored :
  self_example !! "transformation" = None
  /\ (transform sk_example "log" self_example).2 !! "transformation"
     = Some (PStr "log").
Proof. vm_compute. auto. Qed.

(** C9.  On an instance whose [test_df] is [None], [plier] never returns,
    whatever the flags: if nothing fails before, subscripting [None]
    does. *)
Theorem plier_needs_test_df (sk : Sklearn) {W : Type} (world : World W)
    (cfg : Config) (w : W) (self : gmap string pyval) (k seed : Z)
    (transform_df transform_test_df : bool) :
  self !! "test_df" = Some PNone ->
  is_ok (plier sk world cfg k transform_df transform_test_df seed (w, self)).1
  = false.
Proof.
  revert w self.
  cut (never_returns (attr_is "test_df" (Some PNone))
         (plier sk world cfg k transform_df transform_test_df seed)).
  { intros H w self Ht. exact (H (w, self) Ht). }
  unfold plier. never_until_read "test_df".
  apply never_after_getattr_value.
  apply never_bind_r; [solve [repeat keeps_step]|intros ?].
  apply never_bind_l, never_lift_error.
Qed.

(** [DataModel(df=train_example)], without a test set. *)
Definition self_no_test_example : gmap string pyval :=
  (__init__ world_example None (PFrame train_example) None None None PNone
            (files_example, ∅)).2.2.

Lemma plier_needs_test_df_witness :
  self_no_test_example !! "test_df" = Some PNone
  /\ is_ok (plier sk_example world_example cfg_example 1 false false 1
                  (files_example, self_no_test_example)).1 = false.
Proof.
  split; [vm_compute; reflexivity|].
  apply (plier_needs_test_df sk_example world_example cfg_example).
  vm_compute. reflexivity.
Defined.

(** With the PLIER outputs in the cache, the exception is the TypeError of
    [None[...]], and the two PLIER attributes have been assigned by then. *)
Lemma plier_without_test_df_example :
  let r := plier sk_example world_example cfg_example 1 false false 1
                 (files_example, self_no_test_example) in
  r.1 = inl (TypeError "'NoneType' object is not subscriptable")
  /\ bool_decide (is_Some (r.2.2 !! "plier_weights")) = true.
Proof. vm_compute. auto. Qed.

(** *** Running the constructor *)

Lemma mapM_ok {A B} (f : A -> result B) (l : list A) :
  Forall (fun x => is_ok (f x) = true) l -> exists ys, mapM f l = inr ys.
Proof.
  induction 1 as [|x l Hx _ [ys IH]]; [by eexists|].
  simpl. destruct (f x) as [e|y]; [done|]. simpl. rewrite IH. by eexists.
Qed.

(** The positions that [iloc] accepts on an axis of length [n]. *)
Definition valid_position (n : nat) (p : Z) : Prop :=
  - Z.of_nat n <= p < Z.of_nat n.

Lemma position_ok (n : nat) (p : Z) :
  valid_position n p -> is_ok (Pd.position n p) = true.
Proof.
  unfold valid_position, Pd.position. intros H.
  repeat case_bool_decide; try done. lia.
Qed.

Lemma iloc_columns_ok (d : DataFrame) (ps : list Z) :
  Forall (valid_position (length (columns d))) ps ->
  exists r, Pd.iloc_columns d ps = inr r.
Proof.
  intros H. unfold Pd.iloc_columns.
  destruct (mapM_ok (Pd.position (length (columns d))) ps) as [js ->].
  { eapply Forall_impl; [exact H|]. apply position_ok. }
  by eexists.
Qed.

Lemma foldl_max_in (v : Z) (l : list Z) : foldl Z.max v l ∈ v :: l.
Proof.
  revert v. induction l as [|a l IH]; intros v; simpl; [left|].
  specialize (IH (Z.max v a)). apply elem_of_cons in IH as [->|IH].
  - destruct (Z.max_spec v a) as [[_ ->]|[_ ->]]; [right; left|left].
  - right. by right.
Qed.

Lemma range_valid (n : nat) (m : Z) :
  valid_position n m -> Forall (valid_position n) (range (m + 1) (Z.of_nat n)).
Proof.
  unfold valid_position, range. intros H. apply Forall_forall.
  intros p [i [-> Hi%elem_of_seq]]%list_elem_of_fmap. lia.
Qed.

Lemma range_length (a b : Z) : length (range a b) = Z.to_nat (b - a).
Proof. unfold range. by rewrite length_map, length_seq. Qed.

#[local] Arguments Pd.iloc_columns : simpl never.
#[local] Arguments max_list : simpl never.
#[local] Arguments range : simpl never.

Ltac run_maps :=
  repeat first [ rewrite lookup_insert_eq
               | rewrite lookup_insert_ne by discriminate
               | rewrite lookup_empty
               | progress simpl ].

Ltac run_init :=
  unfold __init__, mbind, M_bind, on_self, on_world, setattr, getattr,
    modify, lift, throw, mret, M_ret.

(** With a column subset the constructor reads [self.test_df] while the
    instance has no such attribute yet. *)
Lemma init_select_columns_never {W} (world : World W) (filename : option string)
    (df : pyval) (select_columns gene_modules : option (list Z))
    (test_filename : option string) (test_df : pyval) :
  truthy select_columns = true ->
  never_returns (attr_is "test_df" None)
    (__init__ world filename df select_columns gene_modules test_filename
              test_df).
Proof.
  intros Ht. unfold __init__. rewrite Ht.
  never_until_read "test_df".
  apply never_bind_l.
  never_until_read "test_df".
  apply never_after_getattr_unset.
Qed.

Lemma init_select_columns_exact {W} (world : World W) (w : W)
    (filename : option string) (df : pyval) (cols : list Z)
    (gene_modules : option (list Z)) (test_filename : option string)
    (test_df : pyval) (d : DataFrame) :
  cols <> [] ->
  match filename with
  | None => df = PFrame d
  | Some f => (read_table world f w).1 = inr d
  end ->
  Forall (valid_position (length (columns d))) cols ->
  (__init__ world filename df (Some cols) gene_modules test_filename test_df
            (w, ∅)).1
  = inl (AttributeError "test_df").
Proof.
  intros Hne Hload Hvalid.
  destruct (iloc_columns_ok d cols Hvalid) as [sub Hsub].
  assert (exists m, max_list cols = inr m
                    /\ valid_position (length (columns d)) m)
    as (m & Hm & Hmv).
  { destruct cols as [|c cols']; [done|]. eexists; split; [reflexivity|].
    rewrite Forall_forall in Hvalid. apply Hvalid, foldl_max_in. }
  destruct (iloc_columns_ok d _ (range_valid _ m Hmv)) as [other Hother].
  unfold __init__.
  assert (truthy (Some cols) = true) as -> by (by destruct cols).
  unfold mbind, M_bind, on_self, on_world, setattr, getattr, modify, lift.
  destruct filename as [f|]; simpl in Hload.
  - simpl. destruct (read_table world f w) as [[e|d'] w']; simpl in Hload;
      [done|].
    injection Hload as ->.
    repeat (run_maps; first [rewrite Hsub | rewrite Hm | rewrite Hother]).
    run_maps. reflexivity.
  - subst df.
    repeat (run_maps; first [rewrite Hsub | rewrite Hm | rewrite Hother]).
    run_maps. reflexivity.
Qed.

Lemma position_out_of_bounds (n : nat) (p : Z) :
  ~ valid_position n p ->
  Pd.position n p = inl (IndexError "positional indexers are out-of-bounds").
Proof.
  unfold valid_position, Pd.position. intros H.
  rewrite bool_decide_eq_false_2 by lia.
  by rewrite bool_decide_eq_false_2 by lia.
Qed.

Lemma iloc_columns_out_of_bounds (d : DataFrame) (ps : list Z) :
  ~ Forall (valid_position (length (columns d))) ps ->
  Pd.iloc_columns d ps
  = inl (IndexError "positional indexers are out-of-bounds").
Proof.
  unfold Pd.iloc_columns. intros H.
  assert (mapM (Pd.position (length (columns d))) ps
          = inl (IndexError "positional indexers are out-of-bounds")) as ->;
    [|done].
  induction ps as [|p ps IH]; [by destruct H|]. simpl.
  destruct (decide (- Z.of_nat (length (columns d)) <= p
                    < Z.of_nat (length (columns d)))) as [Hp|Hp].
  - pose proof (position_ok _ p Hp) as Hok.
    destruct (Pd.position _ p) as [e|j]; [done|]. simpl. rewrite IH; [done|].
    intros Hps. apply H. by constructor.
  - by rewrite (position_out_of_bounds _ p Hp).
Qed.

(** With a position that is not a position of a column the constructor
    raises at its first [iloc]. *)
Lemma init_select_columns_out_of_bounds {W} (world : World W) (w : W)
    (filename : option string) (df : pyval) (cols : list Z)
    (gene_modules : option (list Z)) (test_filename : option string)
    (test_df : pyval) (d : DataFrame) :
  cols <> [] ->
  match filename with
  | None => df = PFrame d
  | Some f => (read_table world f w).1 = inr d
  end ->
  ~ Forall (valid_position (length (columns d))) cols ->
  (__init__ world filename df (Some cols) gene_modules test_filename test_df
            (w, ∅)).1
  = inl (IndexError "positional indexers are out-of-bounds").
Proof.
  intros Hne Hload Hvalid.
  pose proof (iloc_columns_out_of_bounds d cols Hvalid) as Hsub.
  unfold __init__.
  assert (truthy (Some cols) = true) as -> by (by destruct cols).
  unfold mbind, M_bind, on_self, on_world, setattr, getattr, modify, lift.
  destruct filename as [f|]; simpl in Hload.
  - simpl. destruct (read_table world f w) as [[e|d'] w']; simpl in Hload;
      [done|].
    injection Hload as ->. run_maps. rewrite Hsub. reflexivity.
  - subst df. run_maps. rewrite Hsub. reflexivity.
Qed.

(** Without a training matrix the constructor raises at [self.df.iloc]. *)
Lemma init_select_columns_no_frame {W} (world : World W) (w : W)
    (df : pyval) (cols : list Z) (gene_modules : option (list Z))
    (test_filename : option string) (test_df : pyval) :
  cols <> [] -> (forall d, df <> PFrame d) ->
  (__init__ world None df (Some cols) gene_modules test_filename test_df
            (w, ∅)).1
  = inl (AttributeError "iloc").
Proof.
  intros Hne Hdf. unfold __init__.
  assert (truthy (Some cols) = true) as -> by (by destruct cols).
  unfold mbind, M_bind, on_self, on_world, setattr, getattr, modify, lift.
  run_maps. destruct df; try reflexivity. by destruct (Hdf d).
Qed.

(** C10, as amended.  With a truthy [select_columns] the constructor never
    returns, whatever the other arguments.  When the training matrix is
    there and the positions are positions of its columns, what it raises
    is the AttributeError for [test_df], with or without a test matrix;
    when a position is not a position of a column, it is the IndexError of
    the first [iloc]; and when [df] is not a frame and no file is named,
    it is the AttributeError for [iloc]. *)
Theorem init_select_columns_raises {W} (world : World W) (w : W)
    (filename : option string) (df : pyval) (select_columns : option (list Z))
    (gene_modules : option (list Z)) (test_filename : option string)
    (test_df : pyval) :
  truthy select_columns = true ->
  is_ok (__init__ world filename df select_columns gene_modules test_filename
                  test_df (w, ∅)).1 = false
  /\ (forall d,
       match filename with
       | None => df = PFrame d
       | Some f => (read_table world f w).1 = inr d
       end ->
       Forall (valid_position (length (columns d)))
              (default [] select_columns) ->
       (__init__ world filename df select_columns gene_modules test_filename
                 test_df (w, ∅)).1
       = inl (AttributeError "test_df"))
  /\ (forall d,
       match filename with
       | None => df = PFrame d
       | Some f => (read_table world f w).1 = inr d
       end ->
       ~ Forall (valid_position (length (columns d)))
                (default [] select_columns) ->
       (__init__ world filename df select_columns gene_modules test_filename
                 test_df (w, ∅)).1
       = inl (IndexError "positional indexers are out-of-bounds"))
  /\ (filename = None -> (forall d, df <> PFrame d) ->
      (__init__ world filename df select_columns gene_modules test_filename
                test_df (w, ∅)).1
      = inl (AttributeError "iloc")).
Proof.
  intros Ht. split; [|split; [|split]].
  - by apply (init_select_columns_never world filename df select_columns
                gene_modules test_filename test_df Ht (w, ∅)).
  - intros d Hload Hvalid. destruct select_columns as [[|c cols]|]; try done.
    by apply (init_select_columns_exact world w filename df (c :: cols)
                gene_modules test_filename test_df d).
  - intros d Hload Hvalid. destruct select_columns as [[|c cols]|]; try done.
    by apply (init_select_columns_out_of_bounds world w filename df
                (c :: cols) gene_modules test_filename test_df d).
  - intros -> Hdf. destruct select_columns as [[|c cols]|]; try done.
    by apply init_select_columns_no_frame.
Qed.

Lemma init_select_columns_raises_witness :
  is_ok (__init__ world_example (Some "train.tsv") (PBool false) (Some [0; 1])
                  None None (PFrame test_example) (files_example, ∅)).1 = false
  /\ (__init__ world_example (Some "train.tsv") (PBool false) (Some [0; 1])
               None None (PFrame test_example) (files_example, ∅)).1
     = inl (AttributeError "test_df").
Proof.
  destruct (init_select_columns_raises world_example files_example
              (Some "train.tsv") (PBool false) (Some [0; 1]) None None
              (PFrame test_example) eq_refl) as (H1 & H2 & _).
  split; [exact H1|].
  apply (H2 train_example); [reflexivity|].
  repeat first [ apply Forall_nil_2
               | apply Forall_cons_2; [vm_compute; split; congruence|] ].
Defined.

(** C10, counterexample: the training matrix has four columns; with
    [select_columns=[7]] the constructor raises an IndexError, not an
    AttributeError. *)
Lemma init_select_columns_index_error :
  (__init__ world_example (Some "train.tsv") (PBool false) (Some [7])
            None None (PFrame test_example) (files_example, ∅)).1
  = inl (IndexError "positional indexers are out-of-bounds").
Proof. vm_compute. reflexivity. Qed.

(** A test matrix passed as [test_df]: the constructor does what it does
    without a test matrix, and stores the one it was given. *)
Lemma init_preloaded {W} (world : World W) (w : W) (filename : option string)
    (df : pyval) (select_columns gene_modules : option (list Z))
    (test_filename : option string) (t : DataFrame) :
  truthy select_columns = false ->
  let preloaded :=
    __init__ world filename df select_columns gene_modules test_filename
             (PFrame t) (w, ∅) in
  let no_test :=
    __init__ world filename df select_columns gene_modules None PNone (w, ∅) in
  preloaded.1 = no_test.1
  /\ (preloaded.1 = inr tt ->
      preloaded.2.2 !! "test_df" = Some (PFrame t)
      /\ preloaded.2.2 !! "num_test_genes" = None).
Proof.
  intros Ht. cbv zeta. run_init. rewrite Ht.
  destruct filename as [f|]; simpl.
  - destruct (read_table world f w) as [[e|d] w']; simpl; [by split|].
    destruct gene_modules as [[|g gs]|]; run_maps; [by split|..];
      destruct test_filename; run_maps; by split.
  - destruct gene_modules as [[|g gs]|]; run_maps; [by split|..];
      (destruct (shape_of df) as [e|sh]; run_maps; [by split|]);
      destruct test_filename; run_maps; by split.
Qed.

(** A test matrix loaded from [test_filename]: the constructor compares
    the two gene counts. *)
Lemma init_loaded {W} (world : World W) (w w' : W) (filename : option string)
    (df : pyval) (select_columns gene_modules : option (list Z))
    (f : string) (td : DataFrame) (s' : gmap string pyval) (g : Z) :
  truthy select_columns = false ->
  __init__ world filename df select_columns gene_modules None PNone (w, ∅)
  = (inr tt, (w', s')) ->
  (read_table world f w').1 = inr td ->
  s' !! "num_genes" = Some (PInt g) ->
  (__init__ world filename df select_columns gene_modules (Some f) PNone
            (w, ∅)).1
  = if bool_decide (g = Z.of_nat (length (columns td))) then inr tt
    else inl (AssertionError
                "train and test sets must have same number of genes").
Proof.
  intros Ht. run_init. rewrite Ht.
  destruct filename as [f0|]; simpl.
  - destruct (read_table world f0 w) as [[e|d] w0]; simpl; [done|].
    destruct gene_modules as [[|x xs]|]; run_maps; [done|..];
      intros [= <- <-];
      destruct (read_table world f w0) as [[e|d'] w1]; simpl; try done;
      intros [= ->]; run_maps; intros [= <-]; run_maps; by case_bool_decide.
  - destruct gene_modules as [[|x xs]|]; run_maps; [done|..];
      (destruct (shape_of df) as [e|sh]; run_maps; [done|]);
      intros [= <- <-];
      destruct (read_table world f w) as [[e|d'] w1]; simpl; try done;
      intros [= ->]; run_maps; intros [= <-]; run_maps; by case_bool_decide.
Qed.



(** *** What a backend stores, and the shape of the combined weights *)

Definition read_only {A} (m : M (gmap string pyval) A) : Prop :=
  forall s, (m s).2 = s.

Lemma read_only_bind {A B} (m : M (gmap string pyval) A)
    (k : A -> M (gmap string pyval) B) :
  read_only m -> (forall x, read_only (k x)) -> read_only (m ≫= k).
Proof.
  intros Hm Hk s. unfold mbind, M_bind. specialize (Hm s).
  destruct (m s) as [[e|x] s']; simpl in *; [done|]. subst. apply Hk.
Qed.

Lemma read_only_getattr (a : string) : read_only (getattr a).
Proof. intros s. unfold getattr. by destruct (s !! a). Qed.

Lemma read_only_lift {A} (r : result A) : read_only (lift r).
Proof. by intros s. Qed.

Lemma read_only_ret {A} (x : A) : read_only (mret x).
Proof. by intros s. Qed.

Ltac read_only_step :=
  first [ apply read_only_bind; [|intros ?] | apply read_only_getattr
        | apply read_only_lift | apply read_only_ret ].

Lemma read_only_index_of (a : string) : read_only (index_of a).
Proof. unfold index_of. repeat read_only_step. Qed.

Lemma read_only_columns_of (a : string) : read_only (columns_of a).
Proof. unfold columns_of. repeat read_only_step. Qed.

Lemma read_only_inv {A} (m : M (gmap string pyval) A)
    (s s' : gmap string pyval) (r : result A) :
  read_only m -> m s = (r, s') -> s' = s.
Proof. intros Hm H. specialize (Hm s). by rewrite H in Hm. Qed.

Lemma DataFrame_new_inv (data : ndarray) (idx cols : list label)
    (d : DataFrame) :
  Pd.DataFrame_new data idx cols = inr d ->
  d = mkFrame idx cols data /\ length data = length idx.
Proof.
  unfold Pd.DataFrame_new.
  destruct (bool_decide (length data = length idx)) eqn:E; simpl; [|done].
  apply bool_decide_eq_true in E.
  destruct (forallb _ data); [|done]. by intros [= <-].
Qed.

(** A successful [pca] or [nmf] with [k] components has stored the
    embedding and a weight matrix with [k] rows. *)
Lemma sklearn_backend_stores (sk : Sklearn) (name : string) (est : Estimator)
    (k : Z) (a b : bool) (self self' : gmap string pyval) (v : pyval) :
  name = "pca" \/ name = "nmf" ->
  sklearn_backend sk name est k a b self = (inr v, self') ->
  is_Some (self' !! (name +:+ "_df"))
  /\ exists w, self' !! (name +:+ "_weights") = Some (PFrame w)
               /\ length (index w) = Z.to_nat k
               /\ length (values w) = Z.to_nat k.
Proof.
  intros Hname H. unfold sklearn_backend in H.
  repeat lazymatch type of H with
         | (_ ≫= _) _ = _ => inv_bind H
         end.
  repeat match goal with
         | Hs : setattr _ _ _ = _ |- _ => injection Hs as _ <-
         | Hs : getattr _ _ = _ |- _ =>
           apply (read_only_inv _ _ _ _ (read_only_getattr _)) in Hs as ->
         | Hs : lift _ _ = _ |- _ => injection Hs as ? <-
         | Hs : index_of _ _ = _ |- _ =>
           apply (read_only_inv _ _ _ _ (read_only_index_of _)) in Hs as ->
         | Hs : columns_of _ _ = _ |- _ =>
           apply (read_only_inv _ _ _ _ (read_only_columns_of _)) in Hs as ->
         end.
  match goal with
  | Hw : Pd.DataFrame_new _ (map _ (range 0 k)) _ = inr _ |- _ =>
    apply DataFrame_new_inv in Hw as [-> Hlen]
  end.
  rewrite length_map, range_length in Hlen.
  match type of H with
  | ?m ?s = _ =>
    assert (forall c, c <> name +:+ "_test_df" -> self' !! c = s !! c)
      as Hkeep
  end.
  { intros c Hc.
    match type of H with
    | ?m ?s = _ =>
      assert (preserves c m) as Hp;
        [|specialize (Hp s); rewrite H in Hp; exact Hp]
    end.
    destruct a; [|destruct b];
      repeat first [ apply preserves_call_transform | apply preserves_ret
                   | by apply preserves_setattr
                   | apply preserves_bind; [|intros ?] ]. }
  split.
  - rewrite Hkeep by (destruct Hname as [-> | ->]; done).
    rewrite lookup_insert_ne by (destruct Hname as [-> | ->]; done).
    rewrite lookup_insert_eq. eauto.
  - eexists. rewrite Hkeep by (destruct Hname as [-> | ->]; done).
    rewrite lookup_insert_eq. split; [done|]. simpl.
    rewrite length_map, range_length.
    split; [f_equal; lia|rewrite Hlen; f_equal; lia].
Qed.

Lemma column_length (j : nat) (a : ndarray) : length (Pd.column j a) = length a.
Proof. unfold Pd.column. by rewrite length_map. Qed.

(** C7, as amended.  When the three backends have been run and their
    weight matrices have k_pca, k_nmf and k_plier rows, the matrix that
    [combine_weight_matrix] returns has k_pca + k_nmf + k_plier columns,
    one for each latent factor, and one row for each gene label of the
    three matrices: it is the transpose of their concatenation. *)
Theorem combine_weight_matrix_shape (self : gmap string pyval)
    (wp wn wl : DataFrame) (k_pca k_nmf k_plier : nat) :
  is_Some (self !! "pca_df") -> is_Some (self !! "nmf_df") ->
  is_Some (self !! "plier_df") ->
  self !! "pca_weights" = Some (PFrame wp) ->
  self !! "nmf_weights" = Some (PFrame wn) ->
  self !! "plier_weights" = Some (PFrame wl) ->
  length (index wp) = k_pca -> length (index wn) = k_nmf ->
  length (index wl) = k_plier ->
  exists d, combine_weight_matrix self = (inr d, self)
    /\ length (columns d) = (k_pca + k_nmf + k_plier)%nat
    /\ index d = Pd.union_labels [columns wp; columns wn; columns wl]
    /\ length (values d) = length (index d)
    /\ Forall (fun row => length row = (length (values wp) + length (values wn)
                                        + length (values wl))%nat) (values d).
Proof.
  intros [v1 H1] [v2 H2] [v3 H3] Hp Hn Hl <- <- <-.
  unfold combine_weight_matrix, add_if_run, hasattr, getattr, mbind, M_bind,
    lift.
  repeat first [ rewrite H1 | rewrite H2 | rewrite H3 | rewrite Hp
               | rewrite Hn | rewrite Hl | progress simpl ].
  eexists; split; [reflexivity|].
  unfold Pd.rename_column; simpl. repeat split.
  - rewrite length_map, !length_app, length_nil. lia.
  - by rewrite length_map, length_seq.
  - apply Forall_forall. intros row [j [-> _]]%list_elem_of_fmap.
    rewrite column_length, !length_app, length_nil.
    unfold Pd.reindex_columns. rewrite !length_map. lia.
Qed.

(** [plier], [pca] and [nmf], each with one component, on the example. *)
Definition three_backends_example : gmap string pyval :=
  ((pca sk_example 1 false true;;
    nmf sk_example 1 false true 1 "nndsvdar" 0x1.47ae147ae147bp-8)
     (plier sk_example world_example cfg_example 1 false true 1
            (files_example, self_example)).2.2).2.

Lemma combine_weight_matrix_shape_witness :
  exists d, combine_weight_matrix three_backends_example
            = (inr d, three_backends_example)
            /\ length (columns d) = 3%nat.
Proof.
  destruct (combine_weight_matrix_shape three_backends_example
    (mkFrame [LStr "pca_0"] [LStr "g1"; LStr "g2"; LStr "g3"; LStr "g4"]
             [[1; 0; 0; 0]]%float)
    (mkFrame [LStr "nmf_0"] [LStr "g1"; LStr "g2"; LStr "g3"; LStr "g4"]
             [[1; 0; 0; 0]]%float)
    (mkFrame [LStr "LV1"] [LStr "g1"; LStr "g2"; LStr "g3"; LStr "g4"]
             [[1; 0; 0; 0]]%float)
    1 1 1) as (d & Hd & Hcols & _);
    try (vm_compute; reflexivity);
    try (eexists; vm_compute; reflexivity).
  exists d. split; [exact Hd|exact Hcols].
Defined.

(** C7, counterexample: with one component for each backend on four
    genes, the combined matrix has four rows, one for each gene, and three
    columns. *)
Lemma combine_weight_matrix_rows_are_genes :
  Pd.shape <$> (combine_weight_matrix three_backends_example).1
  = inr (4%nat, 3%nat).
Proof. vm_compute. reflexivity. Qed.

End DataModel.

(** ** class TorchLR *)

(** A row of the trial-record table that [torch_tuning] builds and
    [torch_param_selection] labels with its fold.  Losses and AUROC values
    are Python floats (binary64). *)
Record trial : Type := mkTrial {
  param_set : nat;
  train_tune : string;
  loss : float;
  auroc : float;
  trial_params : list (string * Q);
  fold : option nat
}.

(** What [torch_model] returns: the two losses, the raw predictions and
    the binarized predictions, each for the training and the test data. *)
Record outputs : Type := mkOutputs {
  losses : float * float;
  preds : list float * list float;
  preds_bn : list Z * list Z
}.

(** What the code asks of torch, numpy's global generator, scikit-learn's
    [KFold] and [roc_auc_score], and Python's [random], on a world [T] that
    holds their random states. *)
Record Torch (T : Type) : Type := mkTorch {
  manual_seed : Z -> M T unit;
  (* np_reseed seed: what [np.random.seed] does to the world once it has
     accepted the seed *)
  np_reseed : Z -> T -> T;
  random_seed : Z -> M T unit;
  randbelow : nat -> M T nat;
  kfold_split : Z -> Z -> nat -> M T (list (list nat * list nat));
  (* fit X_train X_test y_train y_test learning_rate batch_size num_epochs
     l1_penalty pos_weight use_gpu: the training loop, then the two losses,
     the two prediction vectors and the learned weights *)
  fit : ndarray -> ndarray -> list Z -> list Z -> Q -> Q -> Q -> Q ->
        float -> bool ->
        M T ((float * float) * (list float * list float) * list float);
  roc_auc_score : list Z -> list float -> result float
}.

Arguments manual_seed {T}.
Arguments np_reseed {T}.
Arguments random_seed {T}.
Arguments randbelow {T}.
Arguments kfold_split {T}.
Arguments fit {T}.
Arguments roc_auc_score {T}.

Record TorchLR_obj : Type := mkTorchLR {
  seed : Z;
  params_map : list (string * list Q);
  num_inner_folds : Z;
  use_gpu : bool;
  verbose : bool;
  (* attributes that exist only once they have been assigned *)
  results_df : option (list trial);
  best_params : option (list (string * Q));
  cv_results_df : option (list trial);
  last_weights : option (list float)
}.

Module TorchLR.

(** [d[key]] on a dict kept in insertion order. *)
Fixpoint dict_get {A} (key : string) (d : list (string * A)) : result A :=
  match d with
  | [] => raise (KeyError key)
  | (k, v) :: d' => if decide (k = key) then mret v else dict_get key d'
  end.

(** [l[i]] *)
Definition list_get {A} (l : list A) (i : nat) : result A :=
  match l !! i with
  | Some x => mret x
  | None => raise (IndexError "list index out of range")
  end.

(** [max(len(vs) for k, vs in params_map.items())] *)
Definition max_params_length (params_map : list (string * list Q)) : result Z :=
  max_list (map (fun kv => Z.of_nat (length kv.2)) params_map).

(** [{k: v[ix] for k, v in params_map.items()}] *)
Definition params_at (params_map : list (string * list Q)) (ix : nat)
    : result (list (string * Q)) :=
  mapM (fun kv => v ← list_get kv.2 ix; mret (kv.1, v)) params_map.

(** [X[ixs]] with an index array. *)
Definition take_rows {A} (X : list A) (ixs : list nat) : result (list A) :=
  mapM (fun i => match X !! i with
                 | Some x => mret x
                 | None => raise (IndexError "index is out of bounds")
                 end) ixs.

(** [a[i]] on a one-dimensional numpy array. *)
Definition array_get {A} (a : list A) (i : nat) : result A :=
  match a !! i with
  | Some x => mret x
  | None => raise (IndexError "index is out of bounds for axis 0")
  end.

(** [np.bincount(y)]: one count for each value from 0 to the largest. *)
Definition bincount (y : list Z) : result (list nat) :=
  if forallb (fun v => bool_decide (0 <= v)) y then
    match y with
    | [] => mret []
    | v :: y' =>
      mret (map (fun c => length (filter (fun u => u = Z.of_nat c) y))
                (seq 0 (S (Z.to_nat (foldl Z.max v y')))))
    end
  else raise (ValueError "'list' argument must have no negative elements").

(** [train_count[0] / train_count[1]]: the two counts are converted to
    float64 and divided; a zero divisor gives inf or nan, not an error. *)
Definition pos_weight (y_train : list Z) : result float :=
  train_count ← bincount y_train;
  c0 ← array_get train_count 0;
  c1 ← array_get train_count 1;
  mret (Np.of_int (Z.of_nat c0) / Np.of_int (Z.of_nat c1))%float.

(** [(y_pred > 0).astype('int')] *)
Definition binarize (y_pred : list float) : list Z :=
  map (fun p => if (0 <? p)%float then 1 else 0) y_pred.

(** String order of [sorted(param_choices.items())]; keys are distinct, so
    the candidate lists are never compared. *)
Definition key_le {A} (a b : string * A) : Prop := String.leb a.1 b.1 = true.

#[export] Instance key_le_dec {A} (a b : string * A) : Decision (key_le a b).
Proof. unfold key_le. apply _. Defined.

Section WithLibraries.

Context {T : Type} (torch : Torch T).

(** The mean that [groupby(...).mean()] takes of the losses of a group
    (pandas leaves NaN losses out of the mean). *)
Context (mean : list float -> float).

(** Assignments to attributes of [self]. *)
Definition set_results_df (v : list trial) (self : TorchLR_obj)
    : TorchLR_obj :=
  mkTorchLR (seed self) (params_map self) (num_inner_folds self)
            (use_gpu self) (verbose self)
            (Some v) (best_params self) (cv_results_df self) (last_weights self).

Definition set_best_params (v : list (string * Q)) (self : TorchLR_obj)
    : TorchLR_obj :=
  mkTorchLR (seed self) (params_map self) (num_inner_folds self)
            (use_gpu self) (verbose self)
            (results_df self) (Some v) (cv_results_df self) (last_weights self).

Definition set_cv_results_df (v : list trial) (self : TorchLR_obj)
    : TorchLR_obj :=
  mkTorchLR (seed self) (params_map self) (num_inner_folds self)
            (use_gpu self) (verbose self)
            (results_df self) (best_params self) (Some v) (last_weights self).

Definition set_last_weights (v : list float) (self : TorchLR_obj)
    : TorchLR_obj :=
  mkTorchLR (seed self) (params_map self) (num_inner_folds self)
            (use_gpu self) (verbose self)
            (results_df self) (best_params self) (cv_results_df self) (Some v).

(** [random.choice(vals)] *)
Definition choice (vals : list Q) : M T Q :=
  match vals with
  | [] => throw (IndexError "Cannot choose from an empty sequence")
  | _ => i ← randbelow torch (length vals); lift (list_get vals i)
  end.

(** [[random.choice(vals) for _ in range(num_iters)]] *)
Fixpoint choices (vals : list Q) (n : nat) : M T (list Q) :=
  match n with
  | O => mret []
  | S n' => v ← choice vals; vs ← choices vals n'; mret (v :: vs)
  end.

(** The dict comprehension of [get_params_map] over the sorted items. *)
Fixpoint sample_all (param_options : list (string * list Q)) (n : nat)
    : M T (list (string * list Q)) :=
  match param_options with
  | [] => mret []
  | (p, vals) :: rest =>
    vs ← choices vals n; d ← sample_all rest n; mret ((p, vs) :: d)
  end.

(** [TorchLR.get_params_map] *)
Definition get_params_map (self_seed : Z)
    (param_choices : list (string * list Q)) (num_iters : Z)
    : M T (list (string * list Q)) :=
  random_seed torch self_seed;;
  let param_options := merge_sort key_le param_choices in
  sample_all param_options (Z.to_nat num_iters).

(** [np.random.seed(seed)] with an int: numpy takes seeds from 0 to
    2**32 - 1 and raises [ValueError] on any other. *)
Definition np_random_seed (seed : Z) : M T unit :=
  if bool_decide (0 <= seed < 2 ^ 32) then
    fun t => (inr tt, np_reseed torch seed t)
  else throw (ValueError "Seed must be between 0 and 2**32 - 1").

(** [TorchLR.__init__]; the defaults are [seed=1], [num_iters=10],
    [num_inner_folds=4], [use_gpu=False], [verbose=False].  The state is
    the world alone: the instance is what the constructor returns. *)
Definition __init__ (params_map : list (string * list Q)) (seed num_iters
    num_inner_folds : Z) (use_gpu verbose : bool) : M T TorchLR_obj :=
  manual_seed torch seed;;
  np_random_seed seed;;
  max_len ← lift (max_params_length params_map);
  params_map ← (if bool_decide (max_len > 1)
                then get_params_map seed params_map num_iters
                else mret params_map);
  mret (mkTorchLR seed params_map num_inner_folds use_gpu verbose
                  None None None None).

(** [TorchLR.torch_model] *)
Definition torch_model (X_train X_test : ndarray) (y_train y_test : list Z)
    (params : list (string * Q)) (save_weights : bool)
    : M (T * TorchLR_obj) outputs :=
  learning_rate ← lift (dict_get "learning_rate" params);
  batch_size ← lift (dict_get "batch_size" params);
  num_epochs ← lift (dict_get "num_epochs" params);
  l1_penalty ← lift (dict_get "l1_penalty" params);
  w ← lift (pos_weight y_train);
  self ← on_self get;
  r ← on_world (fit torch X_train X_test y_train y_test learning_rate
                    batch_size num_epochs l1_penalty w (use_gpu self));
  (if save_weights then on_self (modify (set_last_weights r.2)) else mret tt);;
  let y_pred := r.1.2 in
  mret (mkOutputs r.1.1 y_pred (binarize y_pred.1, binarize y_pred.2)).

(** The two rows that one iteration of [torch_tuning] appends. *)
Definition tuning_rows (ix : nat) (params : list (string * Q))
    (subtrain_loss tune_loss subtrain_auroc tune_auroc : float)
    : list trial :=
  [mkTrial ix "train" subtrain_loss subtrain_auroc params None;
   mkTrial ix "tune" tune_loss tune_auroc params None].

(** The loop of [torch_tuning] over [ix in range(num_iters)]. *)
Fixpoint tuning_loop (X_subtrain X_tune : ndarray) (y_subtrain y_tune : list Z)
    (ixs : list nat) : M (T * TorchLR_obj) (list trial) :=
  match ixs with
  | [] => mret []
  | ix :: ixs' =>
    self ← on_self get;
    params ← lift (params_at (params_map self) ix);
    out ← torch_model X_subtrain X_tune y_subtrain y_tune params false;
    subtrain_auroc ← lift (roc_auc_score torch y_subtrain (preds out).1);
    tune_auroc ← lift (roc_auc_score torch y_tune (preds out).2);
    rest ← tuning_loop X_subtrain X_tune y_subtrain y_tune ixs';
    mret (tuning_rows ix params (losses out).1 (losses out).2
                      subtrain_auroc tune_auroc ++ rest)%list
  end.

(** The keys that [torch_tuning] itself puts into its [result] dict. *)
Definition reserved_columns : list string :=
  ["param_set"; "train/tune"; "loss"; "auroc"].

(** [TorchLR.torch_tuning] *)
Definition torch_tuning (X_subtrain X_tune : ndarray)
    (y_subtrain y_tune : list Z) : M (T * TorchLR_obj) (list trial) :=
  self ← on_self get;
  first ← lift (list_get (map fst (params_map self)) 0);
  vs ← lift (dict_get first (params_map self));
  let num_iters := length vs in
  rows ← tuning_loop X_subtrain X_tune y_subtrain y_tune (seq 0 num_iters);
  (* pd.DataFrame(result): a hyperparameter that is named like one of the
     four columns has been appended to twice as often as the others *)
  if bool_decide (rows <> [])
     && existsb (fun kv => bool_decide (kv.1 ∈ reserved_columns))
                (params_map self)
  then throw (ValueError "arrays must all be same length")
  else mret rows.

(** [result_df['fold'] = fold] *)
Definition set_fold (f : nat) (r : trial) : trial :=
  mkTrial (param_set r) (train_tune r) (loss r) (auroc r) (trial_params r)
          (Some f).

(** The loop of [torch_param_selection] over the folds, numbered from
    [fold]; [results_df] is [None] until the first fold is done. *)
Fixpoint folds_loop (X_train : ndarray) (y_train : list Z)
    (folds : list (list nat * list nat)) (fold : nat)
    (results_df : option (list trial))
    : M (T * TorchLR_obj) (option (list trial)) :=
  match folds with
  | [] => mret results_df
  | (subtrain_ixs, tune_ixs) :: folds' =>
    X_subtrain ← lift (take_rows X_train subtrain_ixs);
    X_tune ← lift (take_rows X_train tune_ixs);
    y_subtrain ← lift (take_rows y_train subtrain_ixs);
    y_tune ← lift (take_rows y_train tune_ixs);
    result_df ← torch_tuning X_subtrain X_tune y_subtrain y_tune;
    let result_df := map (set_fold fold) result_df in
    folds_loop X_train y_train folds' (S fold)
               (Some (match results_df with
                      | None => result_df
                      | Some df => (df ++ result_df)%list
                      end))
  end.

(** [results_df.loc[results_df['train/tune'] == 'tune']] *)
Definition tune_rows (df : list trial) : list trial :=
  filter (fun r => train_tune r = "tune") df.

(** [.groupby('param_set').mean()], the loss column: one row for each
    parameter-set id, in increasing order of the id.  (The column of split
    labels is not numeric; the pandas of the code leaves it out of the
    means.) *)
Definition groupby_mean (df : list trial) : list (nat * float) :=
  map (fun ps => (ps, mean (map loss (filter (fun r => param_set r = ps) df))))
      (merge_sort le (remove_dups (map param_set df))).

(** A row goes into rows sorted by loss before the first row whose loss
    is not smaller, so after the rows of smaller loss and before the rows
    of equal loss. *)
Fixpoint insert_by_loss (x : nat * float) (l : list (nat * float))
    : list (nat * float) :=
  match l with
  | [] => [x]
  | y :: l' =>
    if (x.2 <=? y.2)%float then x :: l else y :: insert_by_loss x l'
  end.

(** [.sort_values(by='loss').reset_index()]: the rows that have a loss in
    increasing order of the loss, rows of equal loss in the order they had
    (numpy sorts an array of up to 16 elements by insertion, and the rows
    here are the parameter sets, 10 by default), then the rows whose loss
    is NaN ([na_position='last']), in the order they had. *)
Definition sort_values (g : list (nat * float)) : list (nat * float) :=
  (foldr insert_by_loss [] (filter (fun r => is_nan r.2 = false) g)
   ++ filter (fun r => is_nan r.2 = true) g)%list.

(** [TorchLR.torch_param_selection] *)
Definition torch_param_selection (X_train : ndarray) (y_train : list Z)
    : M (T * TorchLR_obj) (list trial * list (string * Q)) :=
  self ← on_self get;
  folds ← on_world (kfold_split torch (num_inner_folds self) (seed self)
                                (length X_train));
  results_df ← folds_loop X_train y_train folds 1 None;
  match results_df with
  | None => throw (AttributeError "loc")
  | Some results_df =>
    let sorted_df := sort_values (groupby_mean (tune_rows results_df)) in
    match sorted_df with
    | [] => throw (KeyError "0")
    | (best_ix, _) :: _ =>
      self ← on_self get;
      best_params ← lift (params_at (params_map self) best_ix);
      on_self (modify (set_cv_results_df
                 (filter (fun r => param_set r = best_ix) results_df)));;
      mret (results_df, best_params)
    end
  end.

(** [TorchLR.train_torch_model] *)
Definition train_torch_model (X_train X_test : ndarray)
    (y_train y_test : list Z)
    : M (T * TorchLR_obj) outputs :=
  self ← on_self get;
  max_len ← lift (max_params_length (params_map self));
  best_params ←
    (if bool_decide (max_len > 1) then
       r ← torch_param_selection X_train y_train;
       on_self (modify (set_results_df r.1));;
       mret r.2
     else
       self ← on_self get;
       lift (params_at (params_map self) 0));
  on_self (modify (set_best_params best_params));;
  torch_model X_train X_test y_train y_test best_params false.

End WithLibraries.

(** *** The class-imbalance weight *)

(** Number of samples of class [c] in a split. *)
Definition count_class (c : Z) (y : list Z) : nat :=
  length (filter (fun u => u = c) y).

Lemma foldl_max_bounds (v : Z) (l : list Z) :
  v <= foldl Z.max v l /\ forall x, x ∈ l -> x <= foldl Z.max v l.
Proof.
  revert v. induction l as [|a l IH]; intros v; simpl.
  - split; [lia|]. intros x Hx. by apply elem_of_nil in Hx.
  - destruct (IH (Z.max v a)) as [Hv Hl]. split; [lia|].
    intros x [->|Hx]%elem_of_cons; [lia|by apply Hl].
Qed.

Lemma foldl_max_le (b v : Z) (l : list Z) :
  v <= b -> Forall (fun x => x <= b) l -> foldl Z.max v l <= b.
Proof.
  revert v. induction l as [|a l IH]; intros v Hv Hl; simpl; [done|].
  inversion Hl; subst. apply IH; [lia|done].
Qed.

Lemma bincount_nonneg (y : list Z) :
  Forall (fun v => 0 <= v) y ->
  forallb (fun v => bool_decide (0 <= v)) y = true.
Proof.
  intros H. apply forallb_forall. intros v Hv. apply bool_decide_eq_true.
  rewrite Forall_forall in H. apply H. by apply list_elem_of_In.
Qed.

Lemma bincount_lookup (y : list Z) (c : nat) (m : Z) :
  Forall (fun v => 0 <= v) y -> m ∈ y -> Z.of_nat c <= m ->
  exists counts, bincount y = inr counts
                 /\ counts !! c = Some (count_class (Z.of_nat c) y).
Proof.
  intros Hpos Hin Hle. unfold bincount. rewrite (bincount_nonneg y Hpos).
  destruct y as [|v y']; [by apply elem_of_nil in Hin|].
  eexists; split; [reflexivity|].
  rewrite list_lookup_fmap, lookup_seq_lt; [done|].
  destruct (foldl_max_bounds v y') as [Hv Hl].
  apply elem_of_cons in Hin as [->|Hin]; [lia|]. specialize (Hl m Hin). lia.
Qed.

Lemma bincount_zeros (y : list Z) :
  Forall (fun v => v = 0) y ->
  exists counts, bincount y = inr counts /\ counts !! 1%nat = None.
Proof.
  intros H. unfold bincount. rewrite bincount_nonneg.
  2:{ eapply Forall_impl; [exact H|]. simpl. lia. }
  destruct y as [|v y']; [by eexists|].
  eexists; split; [reflexivity|].
  assert (foldl Z.max v y' = 0) as ->; [|done].
  inversion H; subst. apply Z.le_antisymm.
  - apply foldl_max_le; [lia|]. eapply Forall_impl; [eassumption|]. simpl. lia.
  - apply (proj1 (foldl_max_bounds 0 y')).
Qed.

Lemma pos_weight_counts (y : list Z) :
  Forall (fun v => 0 <= v) y -> 1 ∈ y ->
  pos_weight y = inr (Np.of_int (Z.of_nat (count_class 0 y))
                      / Np.of_int (Z.of_nat (count_class 1 y)))%float.
Proof.
  intros Hpos H1. unfold pos_weight.
  destruct (bincount_lookup y 0 1 Hpos H1) as (counts & Hb & H0); [done|].
  destruct (bincount_lookup y 1 1 Hpos H1) as (counts' & Hb' & H1'); [done|].
  rewrite Hb in Hb'. injection Hb' as <-.
  rewrite Hb. simpl. unfold array_get. rewrite H0. simpl. rewrite H1'. done.
Qed.

Lemma pos_weight_no_positive (y : list Z) :
  Forall (fun v => v = 0) y ->
  pos_weight y = inl (IndexError "index is out of bounds for axis 0").
Proof.
  intros H. unfold pos_weight.
  destruct (bincount_zeros y H) as (counts & -> & H1). simpl.
  unfold array_get. destruct (counts !! 0%nat); simpl; [|done]. by rewrite H1.
Qed.

Lemma count_class_all (c : Z) (y : list Z) :
  Forall (fun v => v = c) y -> count_class c y = length y.
Proof.
  unfold count_class. induction 1 as [|v y -> _ IH]; [done|].
  rewrite filter_cons_True by done. simpl. by rewrite IH.
Qed.

Lemma count_class_none (c : Z) (y : list Z) :
  c ∉ y -> count_class c y = 0%nat.
Proof.
  unfold count_class. induction y as [|v y IH]; [done|].
  intros [Hv Hy]%not_elem_of_cons.
  rewrite filter_cons_False by congruence. by apply IH.
Qed.

Lemma binary_without (a b : Z) (y : list Z) :
  Forall (fun v => v = a \/ v = b) y -> a ∉ y -> Forall (fun v => v = b) y.
Proof.
  induction 1 as [|v y [->| ->] _ IH]; intros Hy; constructor;
    try (apply IH; intros ?; apply Hy; by right); try done.
  exfalso. apply Hy. left.
Qed.

(** [torch_model] computes the weight before it touches torch: when the
    weight computation raises, [torch_model] raises the same exception
    and has changed nothing. *)
Lemma torch_model_weight_error {T} (torch : Torch T)
    (X_train X_test : ndarray) (y_train y_test : list Z)
    (params : list (string * Q)) (save_weights : bool)
    (s : T * TorchLR_obj) (e : exn) :
  is_ok (dict_get "learning_rate" params) = true ->
  is_ok (dict_get "batch_size" params) = true ->
  is_ok (dict_get "num_epochs" params) = true ->
  is_ok (dict_get "l1_penalty" params) = true ->
  pos_weight y_train = inl e ->
  torch_model torch X_train X_test y_train y_test params save_weights s
  = (inl e, s).
Proof.
  intros H1 H2 H3 H4 Hw. unfold torch_model.
  destruct (dict_get "learning_rate" params); [done|].
  destruct (dict_get "batch_size" params); [done|].
  destruct (dict_get "num_epochs" params); [done|].
  destruct (dict_get "l1_penalty" params); [done|].
  rewrite Hw. reflexivity.
Qed.

(** C5, as amended.  On a training split of labels 0 and 1: with at least
    one sample of each class the positive-class weight is
    count(class 0) / count(class 1), a float64 division; with no sample of
    class 1 the weight computation raises an IndexError (there is no
    ConfigurationError); with no sample of class 0 and at least one of
    class 1 nothing is raised and the weight is 0 / count(class 1). *)
Theorem pos_weight_by_class_counts (y_train : list Z) :
  Forall (fun v => v = 0 \/ v = 1) y_train ->
  (0 ∈ y_train -> 1 ∈ y_train ->
   pos_weight y_train
   = inr (Np.of_int (Z.of_nat (count_class 0 y_train))
          / Np.of_int (Z.of_nat (count_class 1 y_train)))%float)
  /\ (1 ∉ y_train ->
      pos_weight y_train = inl (IndexError "index is out of bounds for axis 0"))
  /\ (0 ∉ y_train -> 1 ∈ y_train ->
      pos_weight y_train
      = inr (Np.of_int 0 / Np.of_int (Z.of_nat (length y_train)))%float).
Proof.
  intros Hbin.
  assert (Forall (fun v => 0 <= v) y_train) as Hpos.
  { eapply Forall_impl; [exact Hbin|]. simpl. lia. }
  split; [|split].
  - intros _ H1. by apply pos_weight_counts.
  - intros H1. apply pos_weight_no_positive.
    apply (binary_without 1 0); [|done].
    eapply Forall_impl; [exact Hbin|]. simpl. tauto.
  - intros H0 H1. rewrite (pos_weight_counts y_train Hpos H1).
    rewrite (count_class_none 0 y_train H0).
    rewrite (count_class_all 1 y_train (binary_without 0 1 y_train Hbin H0)).
    reflexivity.
Qed.

Lemma pos_weight_by_class_counts_witness :
  Forall (fun v => v = 0 \/ v = 1) [0; 0; 0; 1]
  /\ pos_weight [0; 0; 0; 1] = inr 3%float.
Proof.
  assert (Forall (fun v => v = 0 \/ v = 1) [0; 0; 0; 1]) as H.
  { repeat first [apply Forall_nil_2 | apply Forall_cons_2; [lia|]]. }
  split; [exact H|].
  rewrite (proj1 (pos_weight_by_class_counts [0; 0; 0; 1] H)).
  - vm_compute. reflexivity.
  - set_solver.
  - set_solver.
Defined.

(** C5, counterexample: a split with three samples of class 1 and none of
    class 0 raises nothing; the weight is 0.0. *)
Lemma pos_weight_no_negative_class :
  pos_weight [1; 1; 1] = inr 0%float.
Proof. vm_compute. reflexivity. Qed.

(** *** The hyperparameter search *)

Section Search.
Context {T : Type} (torch : Torch T).
Context (mean : list float -> float).

(** The id and the split label of a row. *)
Definition key (r : trial) : nat * string := (param_set r, train_tune r).

Definition keys_of (ixs : list nat) : list (nat * string) :=
  flat_map (fun ix => [(ix, "train"); (ix, "tune")]) ixs.

(** Without [save_weights], [torch_model] assigns no attribute. *)
Lemma torch_model_keeps_self (Xa Xb : ndarray) (ya yb : list Z)
    (params : list (string * Q)) (s : T * TorchLR_obj) :
  (torch_model torch Xa Xb ya yb params false s).2.2 = s.2.
Proof.
  unfold torch_model, mbind, M_bind, lift, on_self, on_world, get.
  repeat match goal with
         | |- context [match ?r with inl _ => _ | inr _ => _ end] =>
           destruct r; simpl; try done
         end.
  destruct (fit _ _ _ _ _ _ _ _ _ _ _ _) as [[?|?] ?]; done.
Qed.

(** The rows of one fold: a train row and a tune row for each id, in the
    order of the ids. *)
Lemma tuning_loop_rows (Xa Xb : ndarray) (ya yb : list Z) (ixs : list nat)
    (s s' : T * TorchLR_obj) (rows : list trial) :
  tuning_loop torch Xa Xb ya yb ixs s = (inr rows, s') ->
  s'.2 = s.2 /\ map key rows = keys_of ixs.
Proof.
  revert s rows. induction ixs as [|ix ixs IH]; intros [t self] rows H;
    simpl in H.
  - by injection H as <- <-.
  - apply bind_inv in H as (self0 & s0 & Hget & H). injection Hget as <- <-.
    apply bind_inv in H as (params & s1 & Hp & H). injection Hp as _ <-.
    apply bind_inv in H as (out & s2 & Hmodel & H).
    apply bind_inv in H as (a1 & s3 & Ha1 & H). injection Ha1 as _ <-.
    apply bind_inv in H as (a2 & s4 & Ha2 & H). injection Ha2 as _ <-.
    apply bind_inv in H as (rest & s5 & Hrest & H). injection H as <- <-.
    apply IH in Hrest as [Hs Hk].
    pose proof (torch_model_keeps_self Xa Xb ya yb params (t, self)) as Hm.
    rewrite Hmodel in Hm. simpl in Hm.
    split; [by rewrite Hs|]. simpl. by rewrite Hk.
Qed.

(** The number of candidate parameter sets of an instance. *)
Definition num_candidates (self : TorchLR_obj) : nat :=
  match params_map self with
  | [] => 0
  | (_, vs) :: _ => length vs
  end.

Lemma torch_tuning_rows (Xa Xb : ndarray) (ya yb : list Z)
    (s s' : T * TorchLR_obj) (rows : list trial) :
  torch_tuning torch Xa Xb ya yb s = (inr rows, s') ->
  s'.2 = s.2 /\ map key rows = keys_of (seq 0 (num_candidates s.2)).
Proof.
  destruct s as [t self]. unfold torch_tuning. intros H.
  apply bind_inv in H as (self0 & s0 & Hget & H). injection Hget as <- <-.
  apply bind_inv in H as (first & s1 & Hfirst & H).
  injection Hfirst as Hfirst <-.
  apply bind_inv in H as (vs & s2 & Hvs & H). injection Hvs as Hvs <-.
  apply bind_inv in H as (rows' & s3 & Hloop & H).
  apply tuning_loop_rows in Hloop as [Hs Hk].
  destruct (_ && _); [done|]. injection H as <- <-.
  split; [done|]. rewrite Hk. do 2 f_equal.
  unfold num_candidates. simpl.
  destruct (params_map self) as [|[k vs'] rest]; [done|].
  simpl in *. injection Hfirst as <-. rewrite decide_True in Hvs by done.
  by injection Hvs as ->.
Qed.

Lemma key_set_fold (f : nat) (r : trial) : key (set_fold f r) = key r.
Proof. done. Qed.

(** The table after the folds: the rows of one fold, once for each fold. *)
Lemma folds_loop_rows (X : ndarray) (y : list Z)
    (folds : list (list nat * list nat)) (f : nat)
    (acc : option (list trial)) (s s' : T * TorchLR_obj)
    (res : option (list trial)) :
  folds_loop torch X y folds f acc s = (inr res, s') ->
  s'.2 = s.2
  /\ match res with
     | None => folds = [] /\ acc = None
     | Some df =>
       map key df
       = (map key (default [] acc)
          ++ concat (replicate (length folds)
                               (keys_of (seq 0 (num_candidates s.2)))))%list
       /\ (acc = None -> folds <> [])
     end.
Proof.
  revert f acc s res. induction folds as [|[sub tune] folds IH];
    intros f acc [t self] res H; simpl in H.
  - injection H as <- <-. split; [done|]. destruct acc; simpl; [|done].
    split; [by rewrite app_nil_r|done].
  - apply bind_inv in H as (Xs & s1 & H1 & H). injection H1 as _ <-.
    apply bind_inv in H as (Xt & s2 & H2 & H). injection H2 as _ <-.
    apply bind_inv in H as (ys & s3 & H3 & H). injection H3 as _ <-.
    apply bind_inv in H as (yt & s4 & H4 & H). injection H4 as _ <-.
    apply bind_inv in H as (rows & s5 & Hrows & H).
    apply torch_tuning_rows in Hrows as [Hs Hk]. simpl in Hs, Hk.
    apply IH in H as [Hs' Hres]. rewrite Hs in Hs'. split; [done|].
    destruct res as [df|]; [|by destruct Hres].
    destruct Hres as [Hdf _]. split; [|done]. rewrite Hdf, Hs. simpl.
    rewrite <- Hk. destruct acc as [a|]; simpl.
    + rewrite map_app, <- list_fmap_compose, <- !app_assoc. reflexivity.
    + rewrite <- list_fmap_compose. reflexivity.
Qed.

(** *** Counting rows *)

Lemma count_tune_rows (j : nat) (df : list trial) :
  length (filter (fun r => param_set r = j) (tune_rows df))
  = length (filter (fun k => k = (j, "tune")) (map key df)).
Proof.
  unfold tune_rows. induction df as [|r df IH]; [done|].
  rewrite fmap_cons, !filter_cons.
  destruct (decide (train_tune r = "tune")) as [Ht|Ht].
  - rewrite filter_cons. destruct (decide (param_set r = j)) as [Hj|Hj].
    + rewrite decide_True by (unfold key; congruence). simpl. by rewrite IH.
    + rewrite decide_False by (unfold key; congruence). exact IH.
  - rewrite decide_False by (unfold key; congruence). exact IH.
Qed.

Lemma count_keys_of (j a n : nat) :
  length (filter (fun k => k = (j, "tune")) (keys_of (seq a n)))
  = if bool_decide (a <= j < a + n)%nat then 1%nat else 0%nat.
Proof.
  revert a. induction n as [|n IH]; intros a.
  - simpl. rewrite bool_decide_eq_false_2 by lia. done.
  - change (keys_of (seq a (S n)))
      with ((a, "train") :: (a, "tune") :: keys_of (seq (S a) n)).
    rewrite filter_cons_False by congruence. rewrite filter_cons.
    destruct (decide ((a, "tune") = (j, "tune"))) as [E|E]; simpl; rewrite IH.
    + injection E as ->. rewrite bool_decide_eq_false_2 by lia.
      rewrite bool_decide_eq_true_2 by lia. done.
    + assert (a <> j) by congruence.
      repeat case_bool_decide; try done; lia.
Qed.

Lemma count_replicated {A} (P : A -> Prop) `{!forall x, Decision (P x)}
    (F : nat) (l : list A) :
  length (filter P (concat (replicate F l))) = (F * length (filter P l))%nat.
Proof.
  induction F as [|F IH]; [done|]. simpl.
  rewrite filter_app, length_app, IH. done.
Qed.

Lemma keys_of_ids (n : nat) (k : nat * string) :
  k ∈ keys_of (seq 0 n) -> (k.1 < n)%nat /\ (k.1, "tune") ∈ keys_of (seq 0 n).
Proof.
  unfold keys_of. intros [ix [Hix Hk]]%list_elem_of_In%in_flat_map.
  pose proof Hix as Hlt. apply list_elem_of_In, elem_of_seq in Hlt.
  assert (k.1 = ix) as ->.
  { simpl in Hk. destruct Hk as [<-|[<-|[]]]; done. }
  split; [lia|]. apply list_elem_of_In, in_flat_map. exists ix.
  split; [exact Hix|]. simpl. auto.
Qed.


(** *** Selection *)

Definition mean_tune_loss (df : list trial) (j : nat) : float :=
  mean (map loss (filter (fun r => param_set r = j) (tune_rows df))).

(** [KFold(n_splits=k).split(X)] yields [k] folds when it yields any. *)
Definition kfold_yields_n_splits : Prop :=
  forall n_splits seed n t folds t',
    kfold_split torch n_splits seed n t = (inr folds, t') ->
    Z.of_nat (length folds) = n_splits.

Lemma groupby_mean_elem (df : list trial) (j : nat) (m : float) :
  (j, m) ∈ groupby_mean mean df <->
  j ∈ map param_set df
  /\ m = mean (map loss (filter (fun r => param_set r = j) df)).
Proof.
  unfold groupby_mean. rewrite list_elem_of_fmap. split.
  - intros [ps [[= -> ->] Hps]]. split; [|done].
    by rewrite merge_sort_Permutation, elem_of_remove_dups in Hps.
  - intros [Hj ->]. exists j. split; [done|].
    by rewrite merge_sort_Permutation, elem_of_remove_dups.
Qed.

(** *** The sort by loss *)

Lemma insert_by_loss_cons (x : nat * float) (l : list (nat * float)) :
  insert_by_loss x l <> [].
Proof. destruct l as [|y l]; simpl; [done|]. by destruct (_ <=? _)%float. Qed.

Lemma sorted_nil (l : list (nat * float)) :
  foldr insert_by_loss [] l = [] -> l = [].
Proof.
  destruct l as [|a l]; [done|]. simpl. intros H.
  by apply insert_by_loss_cons in H.
Qed.

(** The first of the sorted rows is the first of the rows of least loss:
    the rows before it have a greater loss, the rows after it a loss that
    is not smaller. *)
Lemma stable_sort_head (l : list (nat * float)) (x : nat * float)
    (rest : list (nat * float)) :
  Forall (fun r => is_nan r.2 = false) l ->
  foldr insert_by_loss [] l = x :: rest ->
  exists pre post,
    l = (pre ++ x :: post)%list
    /\ Forall (fun y => (x.2 <? y.2)%float = true) pre
    /\ Forall (fun y => (x.2 <=? y.2)%float = true) post.
Proof.
  revert x rest. induction l as [|a l IH]; intros x rest Hnan H; [done|].
  apply Forall_cons in Hnan as [Ha Hnan]. simpl in H.
  destruct (foldr insert_by_loss [] l) as [|y r] eqn:Hl.
  - apply sorted_nil in Hl as ->. injection H as <- _.
    exists [], []. by repeat constructor.
  - destruct (IH y r Hnan eq_refl) as (pre & post & -> & Hpre & Hpost).
    assert (is_nan y.2 = false) as Hy.
    { rewrite Forall_forall in Hnan. apply Hnan.
      apply elem_of_app. right. left. }
    simpl in H. destruct (a.2 <=? y.2)%float eqn:Hay.
    + injection H as <- _. exists [], (pre ++ y :: post)%list.
      split; [done|]. split; [constructor|].
      apply Forall_app. split; [|constructor].
      * eapply Forall_impl; [exact Hpre|]. intros z Hz. simpl in Hz.
        eapply Binary64.leb_trans; [exact Hay|by apply Binary64.ltb_leb].
      * exact Hay.
      * eapply Forall_impl; [exact Hpost|]. intros z Hz. simpl in Hz.
        eapply Binary64.leb_trans; [exact Hay|exact Hz].
    + injection H as <- _. exists (a :: pre), post.
      split; [done|]. split; [|done]. constructor; [|done].
      by apply Binary64.ltb_of_leb_false.
Qed.

Lemma filter_split {A} (P : A -> Prop) `{!forall x, Decision (P x)}
    (g l1 l2 : list A) (x : A) :
  filter P g = (l1 ++ x :: l2)%list ->
  exists g1 g2, g = (g1 ++ x :: g2)%list
                /\ filter P g1 = l1 /\ filter P g2 = l2.
Proof.
  revert l1. induction g as [|a g IH]; intros l1 Hf.
  - by destruct l1.
  - rewrite filter_cons in Hf. destruct (decide (P a)) as [Ha|Ha].
    + destruct l1 as [|b l1]; simpl in Hf.
      * injection Hf as -> Hf. exists [], g. by rewrite filter_nil.
      * injection Hf as -> Hf.
        destruct (IH l1 Hf) as (g1 & g2 & -> & <- & <-).
        exists (b :: g1), g2. split; [done|].
        by rewrite filter_cons_True by done.
    + destruct (IH l1 Hf) as (g1 & g2 & -> & <- & <-).
      exists (a :: g1), g2. split; [done|].
      by rewrite filter_cons_False by done.
Qed.

(** The first row after [sort_values]: if it has a loss, the rows before
    it in the unsorted table have a greater loss or none, the rows after
    it a loss that is not smaller or none; if its loss is NaN, it was the
    first row and no row has a loss. *)
Lemma sort_values_head (g : list (nat * float)) (x : nat * float)
    (rest : list (nat * float)) :
  sort_values g = x :: rest ->
  exists pre post,
    g = (pre ++ x :: post)%list
    /\ if is_nan x.2 then
         pre = [] /\ Forall (fun y => is_nan y.2 = true) post
       else
         Forall (fun y => is_nan y.2 = true \/ (x.2 <? y.2)%float = true) pre
         /\ Forall (fun y => is_nan y.2 = true
                             \/ (x.2 <=? y.2)%float = true) post.
Proof.
  unfold sort_values. intros H.
  destruct (foldr insert_by_loss [] (filter (fun r => is_nan r.2 = false) g))
    as [|y r] eqn:Hsorted.
  - apply sorted_nil in Hsorted. simpl in H.
    assert (Forall (fun y => is_nan y.2 = true) g) as Hall.
    { apply Forall_forall. intros y Hy.
      destruct (is_nan y.2) eqn:E; [done|].
      assert (y ∈ filter (fun r => is_nan r.2 = false) g) as Hin
        by by apply list_elem_of_filter.
      rewrite Hsorted in Hin. by apply elem_of_nil in Hin. }
    assert (filter (fun r => is_nan r.2 = true) g = g) as Hg.
    { clear -Hall. induction Hall as [|a g Ha _ IH]; [done|].
      by rewrite filter_cons_True, IH by done. }
    rewrite Hg in H. subst g. apply Forall_cons in Hall as [Hx Hall].
    exists [], rest. by rewrite Hx.
  - simpl in H. injection H as -> _.
    apply stable_sort_head in Hsorted
      as (pre & post & Hsplit & Hpre & Hpost);
      [|by apply Forall_forall; intros z [? _]%list_elem_of_filter].
    assert (is_nan x.2 = false) as Hx.
    { assert (x ∈ filter (fun r => is_nan r.2 = false) g) as Hin.
      { rewrite Hsplit. apply elem_of_app. right. left. }
      by apply list_elem_of_filter in Hin as [? _]. }
    apply filter_split in Hsplit as (g1 & g2 & -> & <- & <-).
    exists g1, g2. rewrite Hx. split; [done|].
    split; apply Forall_forall; intros z Hz;
      (destruct (is_nan z.2) eqn:E; [by left|right]).
    + rewrite Forall_forall in Hpre. apply Hpre.
      by apply list_elem_of_filter.
    + rewrite Forall_forall in Hpost. apply Hpost.
      by apply list_elem_of_filter.
Qed.

Lemma StronglySorted_after {A} (R : relation A) (l1 l2 : list A) (x : A) :
  StronglySorted R (l1 ++ x :: l2) -> Forall (R x) l2.
Proof.
  induction l1 as [|a l1 IH]; simpl; intros H;
    apply StronglySorted_inv in H as [H1 H2]; [done|by apply IH].
Qed.

(** The grouped table has its rows in increasing order of the
    parameter-set id. *)
Lemma groupby_mean_ids (df : list trial) :
  StronglySorted le (map fst (groupby_mean mean df)).
Proof.
  unfold groupby_mean. rewrite map_map. simpl. rewrite map_id.
  apply StronglySorted_merge_sort; apply _.
Qed.

Lemma tune_row_of_key (df : list trial) (j : nat) :
  (j, "tune") ∈ map key df -> j ∈ map param_set (tune_rows df).
Proof.
  intros [r [Hk Hr]]%list_elem_of_fmap. injection Hk as Hj Ht.
  apply list_elem_of_fmap. exists r. split; [done|].
  unfold tune_rows. apply list_elem_of_filter. by split.
Qed.

Lemma elem_of_concat_replicate {A} (x : A) (F : nat) (l : list A) :
  x ∈ concat (replicate F l) <-> (0 < F)%nat /\ x ∈ l.
Proof.
  induction F as [|F IH]; simpl.
  - split; [by intros ?%elem_of_nil|intros [? _]; lia].
  - rewrite elem_of_app, IH. split; [intros [?|[_ ?]]; split; auto; lia|].
    intros [_ ?]. by left.
Qed.

Lemma keys_of_tune (n j : nat) :
  (j < n)%nat -> (j, "tune") ∈ keys_of (seq 0 n).
Proof.
  intros Hj. apply list_elem_of_In, in_flat_map. exists j.
  split; [apply list_elem_of_In, elem_of_seq; lia|]. simpl. auto.
Qed.


(** *** A grid of single candidates *)

(** The one combination of a grid in which every list has one value. *)
Definition single_combination (grid : list (string * list Q))
    : list (string * Q) :=
  map (fun kv => (kv.1, default 0%Q (head kv.2))) grid.

Lemma max_params_length_singleton (grid : list (string * list Q)) :
  grid <> [] -> Forall (fun kv => length kv.2 = 1%nat) grid ->
  max_params_length grid = inr 1.
Proof.
  intros Hne H. unfold max_params_length.
  destruct grid as [|kv grid]; [done|]. inversion H as [|?? Hkv Hrest]; subst.
  simpl. rewrite Hkv. f_equal. clear Hne H Hkv.
  induction Hrest as [|kv' grid' Hkv' _ IH]; [done|].
  simpl. rewrite Hkv'. exact IH.
Qed.

Lemma params_at_singleton (grid : list (string * list Q)) :
  Forall (fun kv => length kv.2 = 1%nat) grid ->
  params_at grid 0 = inr (single_combination grid).
Proof.
  unfold params_at, single_combination.
  induction 1 as [|[k vs] grid Hkv _ IH]; [done|].
  simpl in *. destruct vs as [|v [|]]; try done. simpl. by rewrite IH.
Qed.

(** On an empty grid the constructor raises: [max] of no lengths. *)
Lemma init_empty_grid (seed num_iters num_inner_folds : Z)
    (use_gpu verbose : bool) (t : T) :
  is_ok (__init__ torch [] seed num_iters num_inner_folds use_gpu verbose t).1
  = false.
Proof.
  unfold __init__, np_random_seed, mbind, M_bind, throw.
  destruct (manual_seed torch seed t) as [[e|[]] t1]; [done|].
  by destruct (bool_decide _).
Qed.

(** The constructor returns for no seed that numpy refuses. *)
Lemma init_accepts_seed (grid : list (string * list Q))
    (seed num_iters num_inner_folds : Z) (use_gpu verbose : bool) (t t1 : T)
    (self : TorchLR_obj) :
  __init__ torch grid seed num_iters num_inner_folds use_gpu verbose t
  = (inr self, t1) ->
  0 <= seed < 2 ^ 32
  /\ exists t0, manual_seed torch seed t = (inr tt, t0).
Proof.
  unfold __init__. intros H.
  apply bind_inv in H as ([] & t0 & Hseed & H).
  apply bind_inv in H as ([] & t2 & Hnp & H).
  unfold np_random_seed in Hnp. case_bool_decide; [|done]. eauto.
Qed.

(** With a seed that numpy refuses the constructor raises the
    [ValueError] of [np.random.seed], once [torch.manual_seed] has
    returned. *)
Lemma init_refuses_seed (grid : list (string * list Q))
    (seed num_iters num_inner_folds : Z) (use_gpu verbose : bool) (t t0 : T) :
  ~ (0 <= seed < 2 ^ 32) ->
  manual_seed torch seed t = (inr tt, t0) ->
  __init__ torch grid seed num_iters num_inner_folds use_gpu verbose t
  = (inl (ValueError "Seed must be between 0 and 2**32 - 1"), t0).
Proof.
  intros Hseed Hm. unfold __init__, np_random_seed, mbind, M_bind, throw.
  rewrite Hm. by rewrite bool_decide_eq_false_2.
Qed.


End Search.

(** *** Stand-ins for the libraries, to run the search on an example

    The "trainer" reports a training loss of 0.25 and a tuning loss that
    depends on the learning rate and on the L1 penalty; the folds are the
    residue classes of the sample indices; the random source counts up
    from the seed; the mean leaves NaN out, as pandas does. *)

Definition nanmean (l : list float) : float :=
  let xs := filter (fun v => is_nan v = false) l in
  (foldr PrimFloat.add 0 xs / Np.of_int (Z.of_nat (length xs)))%float.

Definition kfold_example (n_splits seed : Z) (n : nat)
    : M nat (list (list nat * list nat)) := fun t =>
  if bool_decide (2 <= n_splits <= Z.of_nat n) then
    let k := Z.to_nat n_splits in
    (inr (map (fun i => (filter (fun j => j mod k <> i)%nat (seq 0 n),
                         filter (fun j => j mod k = i)%nat (seq 0 n)))
              (seq 0 k)), t)
  else (inl (ValueError "Cannot have n_splits greater than n_samples"), t).

Definition tune_loss_example (learning_rate l1_penalty : Q) : float :=
  ((if Qeq_bool learning_rate (1 # 100) then 0.5 else 0.25)
   + (if Qeq_bool l1_penalty 0 then 0 else 0.125))%float.

Definition torch_example : Torch nat :=
  mkTorch nat
    (fun _ t => (inr tt, t))
    (fun _ t => t)
    (fun seed _ => (inr tt, Z.to_nat seed))
    (fun n t => (inr (t mod n)%nat, S t))
    kfold_example
    (fun Xa Xb _ _ learning_rate _ _ l1_penalty _ _ t =>
       (inr ((0.25%float, tune_loss_example learning_rate l1_penalty),
             (map (fun _ => 1%float) Xa, map (fun _ => 1%float) Xb), []), t))
    (fun _ _ => inr 0.5%float).

(** A trainer that diverges at the learning rate 1/1000: its loss there is
    NaN. *)
Definition torch_diverging_example : Torch nat :=
  mkTorch nat
    (manual_seed torch_example) (np_reseed torch_example)
    (random_seed torch_example) (randbelow torch_example) kfold_example
    (fun Xa Xb _ _ learning_rate _ _ l1_penalty _ _ t =>
       (inr ((0.25%float,
              if Qeq_bool learning_rate (1 # 1000) then nan
              else tune_loss_example learning_rate l1_penalty),
             (map (fun _ => 1%float) Xa, map (fun _ => 1%float) Xb), []), t))
    (roc_auc_score torch_example).

Lemma kfold_example_yields_n_splits : kfold_yields_n_splits torch_example.
Proof.
  intros n_splits seed n t folds t'. simpl. unfold kfold_example.
  case_bool_decide; [|done]. intros [= <- <-].
  rewrite length_map, length_seq. lia.
Qed.

Definition X_example : ndarray := [[1]; [2]; [3]; [4]]%float.
Definition y_example : list Z := [0; 1; 1; 0].

Definition singleton_grid_example : list (string * list Q) :=
  [("learning_rate", [1 # 100]); ("batch_size", [10 # 1]);
   ("num_epochs", [5 # 1]); ("l1_penalty", [0 # 1])]%Q.

Definition grid_example : list (string * list Q) :=
  [("learning_rate", [1 # 100; 1 # 1000]); ("batch_size", [10 # 1; 20 # 1]);
   ("num_epochs", [5 # 1]); ("l1_penalty", [0 # 1; 1 # 10; 1 # 1])]%Q.

(** The example instance of the constructor on a grid of single
    candidates, with seed 7 and ten requested trials. *)
Definition self_singleton_example : TorchLR_obj :=
  mkTorchLR 7 singleton_grid_example 4 false false None None None None.





(** The instance of the counterexample is the one that the constructor
    returns on the example grid with seed 1 and three trials. *)
Lemma grid_example_sampled :
  __init__ torch_diverging_example grid_example 1 3 2 false false 0%nat
  = (inr (mkTorchLR 1 [("batch_size", [20 # 1; 10 # 1; 20 # 1]);
                       ("l1_penalty", [1 # 10; 1 # 1; 0 # 1]);
                       ("learning_rate", [1 # 1000; 1 # 100; 1 # 1000]);
                       ("num_epochs", [5 # 1; 5 # 1; 5 # 1])]%Q
                    2 false false None None None None),
     13%nat).
Proof. vm_compute. reflexivity. Qed.

(** Of parameter sets with equal mean tune loss the first is chosen: a
    trainer whose loss is the same for every parameter set makes the
    search return parameter set 0. *)
Lemma equal_losses_choose_first :
  exists results best s',
    torch_param_selection
      (mkTorch nat
         (manual_seed torch_example) (np_reseed torch_example)
         (random_seed torch_example) (randbelow torch_example) kfold_example
         (fun Xa Xb _ _ _ _ _ _ _ _ t =>
            (inr ((0.25, 0.5)%float,
                  (map (fun _ => 1%float) Xa, map (fun _ => 1%float) Xb), []),
             t))
         (roc_auc_score torch_example))
      nanmean X_example y_example
      (13%nat,
       mkTorchLR 1 [("batch_size", [20 # 1; 10 # 1; 20 # 1]);
                    ("l1_penalty", [1 # 10; 1 # 1; 0 # 1]);
                    ("learning_rate", [1 # 1000; 1 # 100; 1 # 1000]);
                    ("num_epochs", [5 # 1; 5 # 1; 5 # 1])]%Q
                 2 false false None None None None)
    = (inr (results, best), s')
    /\ best = [("batch_size", 20 # 1); ("l1_penalty", 1 # 10);
               ("learning_rate", 1 # 1000); ("num_epochs", 5 # 1)]%Q.
Proof. vm_compute. eexists _, _, _. repeat split. Qed.

End TorchLR.
